(** * exidvpn-server: the payment back end, [server.js]

    A shallow embedding of the Express handlers of [server.js] and the
    properties of the session store, the two polling loops, the privacy
    relay and the transaction relay.

    Conventions of the embedding.
    - A JavaScript number that holds an integer (a timestamp, a token
      amount in minor units, a byte) is a [Z].  The quotient
      [PAYMENT_AMOUNT / 1_000_000] is a [Q]: the double the program
      computes is the one nearest to that rational.
    - A text the program builds or compares (an id, an error message) is a
      [string]; the string of a request body that is decoded as base64 is
      the list of its UTF-16 code units.
    - [await]ed calls of the collaborators (ledger RPC, pool client,
      provisioning API) either resolve or throw an [Error] with a message:
      an [Outcome].  What they answer is given by a [World]; what the
      handler asks them, in order, is recorded as a list of [Event]s.
    - The [sessions] map is a JavaScript [Map]: its entries in insertion
      order, as the clean-up loop of [/api/create-session] walks them.
    - One handler invocation is modelled from its first to its last
      statement; interleavings of several requests are not. *)

From Stdlib Require Import ZArith QArith String Ascii List Bool Lia.
From Stdlib Require Import DecimalString.
Import ListNotations.

Local Open Scope string_scope.
Local Open Scope list_scope.
Local Open Scope Z_scope.

(** ** The JavaScript runtime *)

Module Js.

(** [haystack.includes(needle)]. *)
Fixpoint includes (needle haystack : string) : bool :=
  if String.prefix needle haystack then true
  else match haystack with
       | EmptyString => false
       | String _ rest => includes needle rest
       end.

(** The decimal digits of an integer. *)
Definition decimal (n : Z) : string := NilZero.string_of_int (Z.to_int n).

(** The number nearest to a non-negative integer: an integer of up to 53
    bits is a number; a longer one is rounded to its 53 leading bits, a tie
    going to the even side.  (Below 2^1024, where numbers are finite.) *)
Definition nearest_number (v : Z) : Z :=
  let bits := Z.log2 v + 1 in
  if bits <=? 53 then v
  else
    let shift := bits - 53 in
    let q := Z.shiftr v shift in
    let r := v - Z.shiftl q shift in
    let half := Z.shiftl 1 (shift - 1) in
    Z.shiftl (if (half <? r) || ((r =? half) && Z.odd q) then q + 1 else q)
      shift.

(** The integer whose digits [Number::toString] writes for the number
    [x > 0]: of the integers that read back as [x], one with the fewest
    significant digits, the closest to [x] among those, the one with the
    even last digit on a tie.  Multiples of [10^p] are tried first, then of
    lower powers of ten. *)
Fixpoint shortest (x : Z) (p : nat) : Z :=
  let unit := 10 ^ Z.of_nat p in
  let below := (x / unit) * unit in
  let above := below + unit in
  let ok_below := (0 <? below) && (nearest_number below =? x) in
  let ok_above := nearest_number above =? x in
  let pick :=
    if ok_below && ok_above then
      if x - below <? above - x then Some below
      else if above - x <? x - below then Some above
      else if Z.even (x / unit) then Some below
      else Some above
    else if ok_below then Some below
    else if ok_above then Some above
    else None in
  match pick, p with
  | Some v, _ => v
  | None, O => x
  | None, S p' => shortest x p'
  end.

Fixpoint strip_zeros (fuel : nat) (v : Z) : Z :=
  match fuel with
  | O => v
  | S fuel' => if v mod 10 =? 0 then strip_zeros fuel' (v / 10) else v
  end.

(** The exponential notation of [v >= 10^21]: [d.ddde+xx]. *)
Definition exponential (v : Z) : string :=
  let digits := decimal v in
  match decimal (strip_zeros (String.length digits) v) with
  | EmptyString => EmptyString
  | String d EmptyString =>
      String d ("e+" ++ decimal (Z.of_nat (String.length digits) - 1))
  | String d rest =>
      String d ("." ++ rest ++ "e+"
                ++ decimal (Z.of_nat (String.length digits) - 1))
  end%string.

(** [String(n)] / template interpolation of an integer-valued number: the
    digits of [n] when [|n| < 2^53]; beyond, the shortest digits that read
    back as the number, in exponential notation from [10^21] on. *)
Definition Number_toString (n : Z) : string :=
  if Z.abs n <? 2 ^ 53 then decimal n
  else
    let x := nearest_number (Z.abs n) in
    let v := shortest x (String.length (decimal x)) in
    let text := if v <? 10 ^ 21 then decimal v else exponential v in
    if n <? 0 then ("-" ++ text)%string else text.

(** The UTF-16 code units of a string of one-byte characters: a JavaScript
    string is the list of its code units, each from 0 to 65535. *)
Fixpoint units (s : string) : list Z :=
  match s with
  | EmptyString => []
  | String c rest => Z.of_N (N_of_ascii c) :: units rest
  end.

(** A [Map] with string keys: the entries, oldest insertion first. *)
Definition Map (V : Type) : Type := list (string * V).

Fixpoint Map_get {V} (m : Map V) (key : string) : option V :=
  match m with
  | [] => None
  | (k, v) :: rest => if String.eqb k key then Some v else Map_get rest key
  end.

(** [m.set(key, value)]: an existing key keeps its place. *)
Fixpoint Map_set {V} (m : Map V) (key : string) (value : V) : Map V :=
  match m with
  | [] => [(key, value)]
  | (k, v) :: rest =>
      if String.eqb k key then (k, value) :: rest
      else (k, v) :: Map_set rest key value
  end.

Definition Map_delete {V} (m : Map V) (key : string) : Map V :=
  filter (fun kv => negb (String.eqb (fst kv) key)) m.

End Js.

(** ** Node's [Buffer] *)

Module Buffer.

(** [Buffer.from(array)]: every element is stored modulo 256. *)
Definition from_array (elements : list Z) : list Z :=
  map (fun e => Z.land e 255) elements.

(** The value of a base64 digit; the decoder reads the URL-safe digits
    [-] and [_] too. *)
Definition unbase64 (c : ascii) : option Z :=
  let n := Z.of_N (N_of_ascii c) in
  if (65 <=? n) && (n <=? 90) then Some (n - 65)
  else if (97 <=? n) && (n <=? 122) then Some (n - 71)
  else if (48 <=? n) && (n <=? 57) then Some (n + 4)
  else if (n =? 43) || (n =? 45) then Some 62
  else if (n =? 47) || (n =? 95) then Some 63
  else None.

(** The decoder reads a code unit by its low byte. *)
Definition low_byte (unit : Z) : ascii :=
  ascii_of_N (Z.to_N (Z.land unit 255)).

(** The digits of the text, in order: a code unit that reads as no digit is
    skipped, and the first one that reads as [=] ends the decoding. *)
Fixpoint sextets (s : list Z) : list Z :=
  match s with
  | [] => []
  | unit :: rest =>
      let c := low_byte unit in
      if Ascii.eqb c "=" then []
      else match unbase64 c with
           | Some v => v :: sextets rest
           | None => sextets rest
           end
  end.

Definition byte1 (hi lo : Z) : Z :=
  Z.lor (Z.shiftl (Z.land hi 63) 2) (Z.shiftr (Z.land lo 48) 4).
Definition byte2 (hi lo : Z) : Z :=
  Z.lor (Z.shiftl (Z.land hi 15) 4) (Z.shiftr (Z.land lo 60) 2).
Definition byte3 (hi lo : Z) : Z :=
  Z.lor (Z.shiftl (Z.land hi 3) 6) (Z.land lo 63).

(** Four digits give three bytes; a last group of three or two digits gives
    two bytes or one, and a single left-over digit gives none. *)
Fixpoint decode_groups (digits : list Z) : list Z :=
  match digits with
  | a :: b :: c :: d :: rest =>
      byte1 a b :: byte2 b c :: byte3 c d :: decode_groups rest
  | [a; b; c] => [byte1 a b; byte2 b c]
  | [a; b] => [byte1 a b]
  | _ => []
  end.

(** [Buffer.from(s, 'base64')], [s] given by its code units. *)
Definition from_base64 (s : list Z) : list Z := decode_groups (sextets s).

(** The base64 text of a byte sequence (RFC 4648, with padding), as
    [buffer.toString('base64')] and [btoa] write it. *)
Definition base64_digit (v : Z) : ascii :=
  if v <? 26 then ascii_of_N (Z.to_N (v + 65))
  else if v <? 52 then ascii_of_N (Z.to_N (v + 71))
  else if v <? 62 then ascii_of_N (Z.to_N (v - 4))
  else if v =? 62 then "+"%char
  else "/"%char.

Definition enc1 (a : Z) : Z := Z.shiftr a 2.
Definition enc2 (a b : Z) : Z :=
  Z.lor (Z.shiftl (Z.land a 3) 4) (Z.shiftr b 4).
Definition enc3 (b c : Z) : Z :=
  Z.lor (Z.shiftl (Z.land b 15) 2) (Z.shiftr c 6).
Definition enc4 (c : Z) : Z := Z.land c 63.

Fixpoint to_base64 (bytes : list Z) : string :=
  match bytes with
  | a :: b :: c :: rest =>
      String (base64_digit (enc1 a)) (String (base64_digit (enc2 a b))
        (String (base64_digit (enc3 b c)) (String (base64_digit (enc4 c))
          (to_base64 rest))))
  | [a; b] =>
      String (base64_digit (enc1 a)) (String (base64_digit (enc2 a b))
        (String (base64_digit (enc3 b 0)) "="))
  | [a] =>
      String (base64_digit (enc1 a)) (String (base64_digit (enc2 a 0)) "==")
  | [] => ""
  end.

Definition is_byte (b : Z) : Prop := 0 <= b < 256.

(** The integers from 0 up to, not including, [n]. *)
Definition below (n : nat) : list Z := map Z.of_nat (seq 0 n).

End Buffer.

(** ** Awaited calls: outcomes and the trace of requests *)

Inductive Outcome (A : Type) : Type :=
| Resolve (value : A)
| Throw (message : string).
Arguments Resolve {A} value.
Arguments Throw {A} message.

Definition PublicKey : Type := string.

Inductive Event : Type :=
| getSignatureStatus_call (signature : string)
| getTokenAccountBalance_call (address : PublicKey)
| setTimeout_wait (ms : Z)
| new_PrivacyCash_call (RPC_url owner : string)
| depositSPL_call (amount : Q) (mintAddress : PublicKey)
| withdrawSPL_call (mintAddress : PublicKey) (amount : Q)
    (recipientAddress : option string)
| fetch_device_call (url platform : string) (app_token : option string)
| sendRawTransaction_call (txBuffer : list Z) (skipPreflight : bool)
    (maxRetries : Z).

(** A computation of the body of an [async] handler: how it ends and what it
    asked of the outside on the way. *)
Definition Run (A : Type) : Type := Outcome A * list Event.

Definition ret {A} (a : A) : Run A := (Resolve a, []).

Definition throw {A} (message : string) : Run A := (Throw message, []).

Definition emit (e : Event) : Run unit := (Resolve tt, [e]).

Definition await {A} (o : Outcome A) : Run A := (o, []).

Definition bind {A B} (m : Run A) (k : A -> Run B) : Run B :=
  match m with
  | (Resolve a, t) => let (r, t') := k a in (r, t ++ t')
  | (Throw e, t) => (Throw e, t)
  end.

(** [try { m } catch (e) { handler e }]. *)
Definition try_catch {A} (m : Run A) (handler : string -> Run A) : Run A :=
  match m with
  | (Throw e, t) => let (r, t') := handler e in (r, t ++ t')
  | done => done
  end.

Notation "x <- m ;; k" := (bind m (fun x => k))
  (at level 61, m at next level, right associativity).
Notation "m ;; k" := (bind m (fun _ => k))
  (at level 61, right associativity).

(** [await new Promise(r => setTimeout(r, ms))]. *)
Definition sleep (ms : Z) : Run unit := emit (setTimeout_wait ms).

Definition outcome {A} (r : Run A) : Outcome A := fst r.
Definition trace {A} (r : Run A) : list Event := snd r.

(** ** Data model *)

Record Keypair : Type := {
  publicKey : PublicKey;
  secretKey : list Z
}.

Record Session : Type := {
  burnerKeypair : Keypair;
  burnerPublicKey : string;
  burnerATA : string;
  burnerPrivateKeyBase58 : string;
  createdAt : Z;
  expiresAt : Z
}.

Inductive ConfirmationStatus : Type := processed | confirmed | finalized.

(** The [value] of a [getSignatureStatus] answer; [err] is [null] or the
    transaction error, an object (so truthy whenever present). *)
Record SignatureStatus : Type := {
  confirmationStatus : option ConfirmationStatus;
  err : option string
}.

(** The [data] member of the provisioning answer: [data.token], [data.id]. *)
Record DeviceInfo : Type := {
  data_token : option string;
  data_id : option string
}.

(** What [fetch] resolved to: [ok], and what [text()] and [json()] (the
    [data] member of the parsed body) give. *)
Record FetchResponse : Type := {
  ok : bool;
  text : Outcome string;
  json : Outcome (option DeviceInfo)
}.

(** The process configuration, lines 21-27. *)
Record Config : Type := {
  RPC_URL : string;
  PAYMENT_WALLET : option string;
  PAYMENT_AMOUNT : Z;
  DVPN_API_URL : string;
  DVPN_APP_TOKEN : option string;
  DESKTOP_SCHEME : string
}.

(** The answers of the collaborators during one request.  A polled call is
    indexed by the attempt that makes it. *)
Record World : Type := {
  getSignatureStatus : string -> nat -> Outcome (option SignatureStatus);
  getTokenAccountBalance : PublicKey -> nat -> Outcome Z;
  new_PrivacyCash : string -> string -> Outcome unit;
  depositSPL : Q -> PublicKey -> Outcome string;
  withdrawSPL : PublicKey -> Q -> option string -> Outcome string;
  fetch_device : string -> string -> option string -> Outcome FetchResponse;
  sendRawTransaction : list Z -> Outcome string;
  Keypair_generate : Keypair;
  Math_random_base36 : string;
  Date_now : nat -> Z
}.

(** The JSON answers ([success] is [false] exactly for [json_error]); of the
    answer of [/api/create-session] the two [solRequired] members, which no
    property below reads, are left out. *)
Inductive Response : Type :=
| json_error (status : Z) (error : string)
| json_create_session (sessionId burnerAddress burnerATA' : string)
    (usdcAmount : Z) (usdcAmountHuman : Q)
| json_execute (device_id : option string)
    (device_token deep_link withdrawal_tx : string)
| json_send (signature : string).

(** [req.body.signedTransaction] of [/api/send-transaction]: missing, an
    array of integers, a string (its UTF-16 code units), or an object with
    integer values whose entries stand in the order [Object.values] walks
    them. *)
Inductive SignedTransaction : Type :=
| tx_missing
| tx_array (elements : list Z)
| tx_string (s : list Z)
| tx_object (entries : list (string * Z)).

(** ** The handlers *)

Section Server.

(** The configuration read at start-up. *)
Variable cfg : Config.

(** Names imported from [@solana/web3.js], [@solana/spl-token] and [bs58]:
    two program identifiers, the derivation of an associated token address
    (it rejects an owner that is off the curve) and the base58 encoder. *)
Variable TOKEN_PROGRAM_ID : PublicKey.
Variable ASSOCIATED_TOKEN_PROGRAM_ID : PublicKey.
Variable getAssociatedTokenAddress :
  PublicKey -> PublicKey -> bool -> PublicKey -> PublicKey -> Outcome PublicKey.
Variable bs58_encode : list Z -> string.

(** What the outside answers during the request. *)
Variable w : World.

Definition USDC_MINT : PublicKey :=
  "EPjFWdd5AufqSSqeM2qN1xzybapC8G4wEGGkZwyTDt1v".

(** [PAYMENT_AMOUNT / 1_000_000]. *)
Definition PAYMENT_AMOUNT_human : Q := PAYMENT_AMOUNT cfg # 1000000.

(** *** POST /api/create-session *)

(** Lines 110-114: one reading of the clock per entry walked. *)
Fixpoint clean_up (k : nat) (entries : list (string * Session))
    (sessions : Js.Map Session) : Js.Map Session :=
  match entries with
  | [] => sessions
  | (id, session) :: rest =>
      clean_up (S k) rest
        (if (Date_now w k >? expiresAt session)
         then Js.Map_delete sessions id else sessions)
  end.

Definition new_session (burnerKeypair : Keypair) (burnerATA : PublicKey)
    : Session :=
  {| burnerKeypair := burnerKeypair;
     burnerPublicKey := publicKey burnerKeypair;
     burnerATA := burnerATA;
     burnerPrivateKeyBase58 := bs58_encode (secretKey burnerKeypair);
     createdAt := Date_now w 1;
     expiresAt := Date_now w 2 + 15 * 60 * 1000 |}.

Definition new_sessionId : string :=
  ("session_" ++ Js.Number_toString (Date_now w 0) ++ "_"
     ++ Math_random_base36 w)%string.

Definition create_session (sessions : Js.Map Session)
    : Response * Js.Map Session :=
  let burnerKeypair := Keypair_generate w in
  let burnerPublicKey := publicKey burnerKeypair in
  match getAssociatedTokenAddress USDC_MINT burnerPublicKey false
          TOKEN_PROGRAM_ID ASSOCIATED_TOKEN_PROGRAM_ID with
  | Throw message => (json_error 500 message, sessions)
  | Resolve burnerATA =>
      let sessionId := new_sessionId in
      let sessions := Js.Map_set sessions sessionId
                        (new_session burnerKeypair burnerATA) in
      let sessions := clean_up 3 sessions sessions in
      (json_create_session sessionId burnerPublicKey burnerATA
         (PAYMENT_AMOUNT cfg) PAYMENT_AMOUNT_human,
       sessions)
  end.

(** *** POST /api/execute-privacy-transaction *)

Definition confirmed_or_finalized (status : option SignatureStatus) : bool :=
  match status with
  | Some {| confirmationStatus := Some confirmed |}
  | Some {| confirmationStatus := Some finalized |} => true
  | _ => false
  end.

Definition status_err (status : option SignatureStatus) : option string :=
  match status with
  | Some value => err value
  | None => None
  end.

(** Lines 156-166, the body of the [try]: whether the loop is left with
    [confirmed = true]. *)
Definition poll_signature (signature : string) (attempt : nat) : Run bool :=
  emit (getSignatureStatus_call signature) ;;
  status <- await (getSignatureStatus w signature attempt) ;;
  if confirmed_or_finalized status then
    match status_err status with
    | None => ret true
    | Some _ => throw "Funding transaction failed on-chain"
    end
  else ret false.

(** Lines 167-169. *)
Definition rethrow_on_chain_failure (message : string) : Run bool :=
  if Js.includes "failed on-chain" message then throw message else ret false.

(** Lines 154-171 with [n] iterations left. *)
Fixpoint confirmation_loop (signature : string) (n attempt : nat) : Run bool :=
  match n with
  | O => ret false
  | S n' =>
      done <- try_catch (poll_signature signature attempt)
                rethrow_on_chain_failure ;;
      if done then ret true
      else sleep 1000 ;; confirmation_loop signature n' (S attempt)
  end.

(** Lines 153-175. *)
Definition wait_for_funding (signature : string) : Run unit :=
  isConfirmed <- confirmation_loop signature 30 0 ;;
  if isConfirmed then ret tt
  else throw "Funding transaction did not confirm within 30 seconds".

(** Lines 183-190: the new value of [usdcBalance] and whether the loop is
    left. *)
Definition poll_balance (burnerATA : PublicKey) (attempt : nat)
    (usdcBalance : Z) : Run (Z * bool) :=
  try_catch
    (emit (getTokenAccountBalance_call burnerATA) ;;
     amount <- await (getTokenAccountBalance w burnerATA attempt) ;;
     ret (amount, (amount >=? PAYMENT_AMOUNT cfg)))
    (fun _ => ret (usdcBalance, false)).

(** Lines 182-192 with [n] iterations left. *)
Fixpoint balance_loop (burnerATA : PublicKey) (n attempt : nat)
    (usdcBalance : Z) : Run Z :=
  match n with
  | O => ret usdcBalance
  | S n' =>
      r <- poll_balance burnerATA attempt usdcBalance ;;
      if snd r then ret (fst r)
      else sleep 2000 ;; balance_loop burnerATA n' (S attempt) (fst r)
  end.

Definition insufficient_usdc (usdcBalance : Z) : string :=
  ("Insufficient USDC. Have: " ++ Js.Number_toString usdcBalance
     ++ ", Need: " ++ Js.Number_toString (PAYMENT_AMOUNT cfg))%string.

(** Lines 181-196. *)
Definition verify_balance (burnerATA : PublicKey) : Run Z :=
  usdcBalance <- balance_loop burnerATA 10 0 0 ;;
  if (usdcBalance <? PAYMENT_AMOUNT cfg)
  then throw (insufficient_usdc usdcBalance)
  else ret usdcBalance.

(** Lines 200-223: the signature of the withdrawal. *)
Definition privacy_relay (session : Session) : Run string :=
  emit (new_PrivacyCash_call (RPC_URL cfg) (burnerPrivateKeyBase58 session)) ;;
  await (new_PrivacyCash w (RPC_URL cfg) (burnerPrivateKeyBase58 session)) ;;
  emit (depositSPL_call PAYMENT_AMOUNT_human USDC_MINT) ;;
  await (depositSPL w PAYMENT_AMOUNT_human USDC_MINT) ;;
  sleep 3000 ;;
  emit (withdrawSPL_call USDC_MINT PAYMENT_AMOUNT_human (PAYMENT_WALLET cfg)) ;;
  await (withdrawSPL w USDC_MINT PAYMENT_AMOUNT_human (PAYMENT_WALLET cfg)).

(** Lines 227-251: [deviceId], [deviceToken] and the deep link. *)
Definition issue_activation : Run (option string * string * string) :=
  let url := (DVPN_API_URL cfg ++ "/device")%string in
  emit (fetch_device_call url "WINDOWS" (DVPN_APP_TOKEN cfg)) ;;
  deviceResponse <- await (fetch_device w url "WINDOWS" (DVPN_APP_TOKEN cfg)) ;;
  if negb (ok deviceResponse) then
    await (text deviceResponse) ;;
    throw "Failed to create device"
  else
    deviceData <- await (json deviceResponse) ;;
    let deviceToken :=
      match deviceData with Some d => data_token d | None => None end in
    let deviceId :=
      match deviceData with Some d => data_id d | None => None end in
    match deviceToken with
    | Some (String c s as tok) =>
        ret (deviceId, tok,
             (DESKTOP_SCHEME cfg ++ "://activate?token=" ++ tok)%string)
    | _ => throw "No device token received"
    end.

(** Lines 149-251, the pipeline between the session look-up and the
    deletion. *)
Definition pipeline (session : Session) (fundingTxSignature : option string)
    : Run (option string * string * string * string) :=
  match fundingTxSignature with
  | Some (String _ _ as signature) => wait_for_funding signature
  | _ => ret tt
  end ;;
  verify_balance (burnerATA session) ;;
  withdrawal <- privacy_relay session ;;
  activation <- issue_activation ;;
  ret (activation, withdrawal).

(** Lines 134-270: the response, the store afterwards and the calls made. *)
Definition execute_privacy_transaction
    (sessionId fundingTxSignature : option string) (sessions : Js.Map Session)
    : Response * Js.Map Session * list Event :=
  match sessionId with
  | Some (String _ _ as sessionId) =>
      match Js.Map_get sessions sessionId with
      | None => (json_error 400 "Invalid or expired session", sessions, [])
      | Some session =>
          match pipeline session fundingTxSignature with
          | (Resolve (deviceId, deviceToken, deepLink, withdrawal_tx), calls) =>
              (json_execute deviceId deviceToken deepLink withdrawal_tx,
               Js.Map_delete sessions sessionId, calls)
          | (Throw message, calls) => (json_error 500 message, sessions, calls)
          end
      end
  | _ => (json_error 400 "sessionId is required", sessions, [])
  end.

(** *** Reading the pipeline stage by stage *)

Definition resolved {A} (o : Outcome A) : bool :=
  match o with
  | Resolve _ => true
  | Throw _ => false
  end.

(** The value the most recent successful balance query returned among the
    first [k] attempts, and 0 when none succeeded. *)
Fixpoint last_observed (burnerATA : PublicKey) (k : nat) : Z :=
  match k with
  | O => 0
  | S k' =>
      match getTokenAccountBalance w burnerATA k' with
      | Resolve amount => amount
      | Throw _ => last_observed burnerATA k'
      end
  end.

(** The requests of [k] balance attempts that each go on to the next one. *)
Definition balance_retries (burnerATA : PublicKey) (k : nat) : list Event :=
  concat
    (repeat [getTokenAccountBalance_call burnerATA; setTimeout_wait 2000] k).

(** The requests of [k] status attempts that each go on to the next one. *)
Definition confirmation_retries (signature : string) (k : nat) : list Event :=
  concat (repeat [getSignatureStatus_call signature; setTimeout_wait 1000] k).

(** What the confirmation loop does after an attempt that neither confirms
    nor fails: wait a second and run the iterations left. *)
Definition goes_on (signature : string) (n attempt : nat) : Run bool :=
  (outcome (confirmation_loop signature n (S attempt)),
   getSignatureStatus_call signature :: setTimeout_wait 1000
     :: trace (confirmation_loop signature n (S attempt))).

(** The status attempt [k] leaves the loop running: no confirmed or
    finalized status, or an exception that is swallowed. *)
Definition transient (signature : string) (k : nat) : bool :=
  match getSignatureStatus w signature k with
  | Resolve status => negb (confirmed_or_finalized status)
  | Throw message => negb (Js.includes "failed on-chain" message)
  end.

(** The balance attempt [k] leaves the loop running: an amount below the
    price, or an exception. *)
Definition short (burnerATA : PublicKey) (k : nat) : bool :=
  match getTokenAccountBalance w burnerATA k with
  | Resolve amount => amount <? PAYMENT_AMOUNT cfg
  | Throw _ => true
  end.

(** Funding confirmation: skipped when no signature was supplied. *)
Definition funding_confirmed (fundingTxSignature : option string) : bool :=
  match fundingTxSignature with
  | Some (String _ _ as signature) =>
      resolved (outcome (wait_for_funding signature))
  | _ => true
  end.

Definition balance_verified (session : Session) : bool :=
  resolved (outcome (verify_balance (burnerATA session))).

Definition deposited (session : Session) : bool :=
  resolved (new_PrivacyCash w (RPC_URL cfg) (burnerPrivateKeyBase58 session))
  && resolved (depositSPL w PAYMENT_AMOUNT_human USDC_MINT).

Definition withdrawn : bool :=
  resolved (withdrawSPL w USDC_MINT PAYMENT_AMOUNT_human (PAYMENT_WALLET cfg)).

Definition activation_issued : bool :=
  resolved (outcome issue_activation).

Definition all_stages_succeeded (session : Session)
    (fundingTxSignature : option string) : bool :=
  funding_confirmed fundingTxSignature && balance_verified session
  && deposited session && withdrawn && activation_issued.

(** A signature whose status, whenever the ledger shows one, carries an
    error. *)
Definition carries_error (signature : string) : Prop :=
  forall k value,
    getSignatureStatus w signature k = Resolve (Some value) ->
    err value <> None.

(** The derivation of line 87 as a function of the credential alone. *)
Definition derive_ata (burner : Keypair) : Outcome PublicKey :=
  getAssociatedTokenAddress USDC_MINT (publicKey burner) false
    TOKEN_PROGRAM_ID ASSOCIATED_TOKEN_PROGRAM_ID.

(** The amount a request hands to the pool, if it is a pool request. *)
Definition pool_amount (e : Event) : option Q :=
  match e with
  | depositSPL_call amount _ => Some amount
  | withdrawSPL_call _ amount _ => Some amount
  | _ => None
  end.

(** A request that hands the pool nothing but [PAYMENT_AMOUNT / 1_000_000]. *)
Definition pays_human_amount (e : Event) : Prop :=
  forall amount, pool_amount e = Some amount -> amount = PAYMENT_AMOUNT_human.

(** *** POST /api/send-transaction *)

(** Lines 283-290. *)
Definition normalize (signedTransaction : SignedTransaction) : list Z :=
  match signedTransaction with
  | tx_array elements => Buffer.from_array elements
  | tx_string s => Buffer.from_base64 s
  | tx_object entries => Buffer.from_array (map snd entries)
  | tx_missing => []
  end.

(** [!signedTransaction], line 277. *)
Definition not_given (signedTransaction : SignedTransaction) : bool :=
  match signedTransaction with
  | tx_missing | tx_string [] => true
  | _ => false
  end.

(** Lines 273-304. *)
Definition send_transaction (signedTransaction : SignedTransaction)
    : Response * list Event :=
  if not_given signedTransaction
  then (json_error 400 "signedTransaction required", [])
  else
    let txBuffer := normalize signedTransaction in
    match emit (sendRawTransaction_call txBuffer false 3) ;;
          await (sendRawTransaction w txBuffer) with
    | (Resolve signature, calls) => (json_send signature, calls)
    | (Throw message, calls) => (json_error 500 message, calls)
    end.

End Server.

(** ** The session store over the life of the process *)

Section Store.

Variable cfg : Config.
Variable TOKEN_PROGRAM_ID : PublicKey.
Variable ASSOCIATED_TOKEN_PROGRAM_ID : PublicKey.
Variable getAssociatedTokenAddress :
  PublicKey -> PublicKey -> bool -> PublicKey -> PublicKey -> Outcome PublicKey.
Variable bs58_encode : list Z -> string.

(** One request that touches [sessions], served in whatever world. *)
Inductive step : Js.Map Session -> Js.Map Session -> Prop :=
| step_create_session (w : World) (sessions : Js.Map Session) :
    step sessions
      (snd (create_session cfg TOKEN_PROGRAM_ID ASSOCIATED_TOKEN_PROGRAM_ID
              getAssociatedTokenAddress bs58_encode w sessions))
| step_execute_privacy_transaction (w : World)
    (sessionId fundingTxSignature : option string)
    (sessions : Js.Map Session) :
    step sessions
      (snd (fst (execute_privacy_transaction cfg w sessionId
                   fundingTxSignature sessions))).

(** The stores the process can be in: [new Map()] at start-up, line 39. *)
Inductive reachable : Js.Map Session -> Prop :=
| reachable_start : reachable []
| reachable_step (sessions sessions' : Js.Map Session) :
    reachable sessions -> step sessions sessions' -> reachable sessions'.

End Store.

(** ** Sample configuration and worlds *)

Module Sample.

Definition cfg : Config :=
  {| RPC_URL := "https://api.mainnet-beta.solana.com";
     PAYMENT_WALLET := Some "9xQeWvG816bUx9EPjHmaT23yvVM2ZWbrrpZb9PusVFin";
     PAYMENT_AMOUNT := 1000000;
     DVPN_API_URL := "https://api.dvpnsdk.com";
     DVPN_APP_TOKEN := Some "app-token";
     DESKTOP_SCHEME := "exidvpn" |}.

Definition TOKEN_PROGRAM_ID : PublicKey :=
  "TokenkegQfeZyiNwAJbNbGKPFXCWuBvf9Ss623VQ5DA".
Definition ASSOCIATED_TOKEN_PROGRAM_ID : PublicKey :=
  "ATokenGPvbdGVxr1b2hvZbsiqW5xWH25efTNsLJA8knL".

(** Stand-ins for the two library functions: any functions would do. *)
Definition getAssociatedTokenAddress (mint owner : PublicKey)
    (allowOwnerOffCurve : bool) (programId associatedId : PublicKey)
    : Outcome PublicKey :=
  Resolve ("ata-of-" ++ owner)%string.
Definition bs58_encode (bytes : list Z) : string :=
  Buffer.to_base64 (Buffer.from_array bytes).

Definition burner : Keypair :=
  {| publicKey := "Burner11111111111111111111111111111111111111";
     secretKey := [7; 8; 9] |}.

Definition device : FetchResponse :=
  {| ok := true;
     text := Resolve "{}";
     json := Resolve (Some {| data_token := Some "tok-1";
                              data_id := Some "dev-1" |}) |}.

(** A world where the pool and the provisioning API answer well, with the
    clock, the signature statuses and the balances left open. *)
Definition world (clock : nat -> Z)
    (statuses : nat -> Outcome (option SignatureStatus))
    (balances : nat -> Outcome Z) : World :=
  {| getSignatureStatus := fun _ => statuses;
     getTokenAccountBalance := fun _ => balances;
     new_PrivacyCash := fun _ _ => Resolve tt;
     depositSPL := fun _ _ => Resolve "deposit-signature";
     withdrawSPL := fun _ _ _ => Resolve "withdrawal-signature";
     fetch_device := fun _ _ _ => Resolve device;
     sendRawTransaction := fun _ => Resolve "relayed-signature";
     Keypair_generate := burner;
     Math_random_base36 := "k3j9x2q1z";
     Date_now := clock |}.

Definition status_ok : option SignatureStatus :=
  Some {| confirmationStatus := Some confirmed; err := None |}.
Definition status_failed : option SignatureStatus :=
  Some {| confirmationStatus := Some finalized;
          err := Some "InstructionError" |}.
Definition status_processed_failed : option SignatureStatus :=
  Some {| confirmationStatus := Some processed;
          err := Some "InstructionError" |}.

(** Funded at once, clock standing at [now]. *)
Definition happy (now : Z) : World :=
  world (fun _ => now) (fun _ => Resolve status_ok) (fun _ => Resolve 1000000).

(** The balance stays at half the price. *)
Definition underfunded : World :=
  world (fun _ => 0) (fun _ => Resolve status_ok) (fun _ => Resolve 500000).

(** The balance query works once and then keeps failing. *)
Definition flaky_balance : World :=
  world (fun _ => 0) (fun _ => Resolve status_ok)
    (fun k => match k with
              | O => Resolve 250000
              | _ => Throw "fetch failed"
              end).

(** Every balance query fails. *)
Definition balance_unavailable : World :=
  world (fun _ => 0) (fun _ => Resolve status_ok)
    (fun _ => Throw "fetch failed").

(** The balance is short twice and sufficient at the third attempt. *)
Definition funded_late : World :=
  world (fun _ => 0) (fun _ => Resolve status_ok)
    (fun k => match k with
              | 0%nat => Resolve 0
              | 1%nat => Throw "fetch failed"
              | _ => Resolve 1500000
              end).

(** The funding transaction failed on the ledger. *)
Definition funding_failed : World :=
  world (fun _ => 0) (fun _ => Resolve status_failed)
    (fun _ => Resolve 1000000).

(** The ledger never shows more than a processed status, with an error. *)
Definition funding_processed_failed : World :=
  world (fun _ => 0) (fun _ => Resolve status_processed_failed)
    (fun _ => Resolve 1000000).

(** The status query throws: a network error at first, then a message that
    happens to mention an on-chain failure. *)
Definition rpc_errors : World :=
  world (fun _ => 0)
    (fun k => match k with
              | O => Throw "socket hang up"
              | _ => Throw "simulation failed on-chain"
              end)
    (fun _ => Resolve 1000000).

(** The clock ticks between the readings of a request: 1000, 1000, 1001, ... *)
Definition ticking : World :=
  world (fun k => match k with
                  | 0%nat | 1%nat => 1000
                  | _ => 1001
                  end)
    (fun _ => Resolve status_ok) (fun _ => Resolve 1000000).

Definition create (w : World) (sessions : Js.Map Session)
    : Response * Js.Map Session :=
  create_session cfg TOKEN_PROGRAM_ID ASSOCIATED_TOKEN_PROGRAM_ID
    getAssociatedTokenAddress bs58_encode w sessions.

(** The store after one session was created with the clock at 1000: it
    holds the session "session_1000_k3j9x2q1z", which expires at 901000. *)
Definition store : Js.Map Session := snd (create (happy 1000) []).
Definition sessionId : string := "session_1000_k3j9x2q1z".

End Sample.

(** ** Further readings of a run *)

Section Readings.

Variable cfg : Config.
Variable w : World.

(** The first stage of the pipeline, lines 150-176: the wait, or nothing
    when no signature came with the request. *)
Definition funding_stage (fundingTxSignature : option string) : Run unit :=
  match fundingTxSignature with
  | Some (String _ _ as signature) => wait_for_funding w signature
  | _ => ret tt
  end.

(** Lines 138-145: the session the request resolves to, if any. *)
Definition lookup (sessions : Js.Map Session) (sessionId : option string)
    : option Session :=
  match sessionId with
  | Some (String _ _ as sessionId) => Js.Map_get sessions sessionId
  | _ => None
  end.

(** A request of the pipeline that goes where the configuration and the
    session say: the status of the supplied signature, the balance of the
    session's token account, a pool client of the session's burner, the
    configured mint and payment wallet, the provisioning endpoint; and no
    raw transaction. *)
Definition addressed (session : Session) (fundingTxSignature : option string)
    (e : Event) : Prop :=
  match e with
  | getSignatureStatus_call signature =>
      fundingTxSignature = Some signature /\ signature <> ""
  | getTokenAccountBalance_call address => address = burnerATA session
  | setTimeout_wait ms => ms = 1000 \/ ms = 2000 \/ ms = 3000
  | new_PrivacyCash_call RPC_url owner =>
      RPC_url = RPC_URL cfg /\ owner = burnerPrivateKeyBase58 session
  | depositSPL_call _ mintAddress => mintAddress = USDC_MINT
  | withdrawSPL_call mintAddress _ recipientAddress =>
      mintAddress = USDC_MINT /\ recipientAddress = PAYMENT_WALLET cfg
  | fetch_device_call url platform app_token =>
      url = (DVPN_API_URL cfg ++ "/device")%string /\ platform = "WINDOWS" /\
      app_token = DVPN_APP_TOKEN cfg
  | sendRawTransaction_call _ _ _ => False
  end.

(** What must have succeeded before a request of the pipeline is made; a
    wait is no request. *)
Definition succeeded_before (session : Session)
    (fundingTxSignature : option string) (e : Event) : bool :=
  match e with
  | getSignatureStatus_call _ | setTimeout_wait _ => true
  | getTokenAccountBalance_call _ => funding_confirmed w fundingTxSignature
  | new_PrivacyCash_call _ _ =>
      funding_confirmed w fundingTxSignature && balance_verified cfg w session
  | depositSPL_call _ _ =>
      funding_confirmed w fundingTxSignature && balance_verified cfg w session
      && resolved (new_PrivacyCash w (RPC_URL cfg)
                     (burnerPrivateKeyBase58 session))
  | withdrawSPL_call _ _ _ =>
      funding_confirmed w fundingTxSignature && balance_verified cfg w session
      && deposited cfg w session
  | fetch_device_call _ _ _ =>
      funding_confirmed w fundingTxSignature && balance_verified cfg w session
      && deposited cfg w session && withdrawn cfg w
  | sendRawTransaction_call _ _ _ => false
  end.

End Readings.

(** The milliseconds a run spends in [setTimeout]. *)
Fixpoint waited (calls : list Event) : Z :=
  match calls with
  | [] => 0
  | setTimeout_wait ms :: rest => ms + waited rest
  | _ :: rest => waited rest
  end.

Definition is_status_query (e : Event) : bool :=
  match e with getSignatureStatus_call _ => true | _ => false end.

Definition is_balance_query (e : Event) : bool :=
  match e with getTokenAccountBalance_call _ => true | _ => false end.

(** How many requests of a kind a run makes. *)
Definition asked (kind : Event -> bool) (calls : list Event) : nat :=
  length (filter kind calls).

(** What a list of requests costs: no more than the given waits, status
    queries, balance queries and requests in all. *)
Definition within (ms : Z) (statuses balances requests : nat)
    (calls : list Event) : Prop :=
  0 <= waited calls <= ms /\
  (asked is_status_query calls <= statuses)%nat /\
  (asked is_balance_query calls <= balances)%nat /\
  (length calls <= requests)%nat.

(** ** More sample worlds *)

Module Scenario.

(** The ledger never shows the funding transaction. *)
Definition never_visible : World :=
  Sample.world (fun _ => 0) (fun _ => Resolve None) (fun _ => Resolve 1000000).

(** The funding transaction shows as finalized at the third attempt. *)
Definition confirmed_late : World :=
  Sample.world (fun _ => 0)
    (fun k => match k with
              | 0%nat => Resolve None
              | 1%nat => Throw "socket hang up"
              | _ => Resolve (Some {| confirmationStatus := Some finalized;
                                      err := None |})
              end)
    (fun _ => Resolve 1000000).

(** The provisioning API answers with a non-success status. *)
Definition provisioning_down : World :=
  {| getSignatureStatus := fun _ _ => Resolve Sample.status_ok;
     getTokenAccountBalance := fun _ _ => Resolve 1000000;
     new_PrivacyCash := fun _ _ => Resolve tt;
     depositSPL := fun _ _ => Resolve "deposit-signature";
     withdrawSPL := fun _ _ _ => Resolve "withdrawal-signature";
     fetch_device := fun _ _ _ =>
       Resolve {| ok := false;
                  text := Resolve "Service Unavailable";
                  json := Throw "Unexpected token S in JSON" |};
     sendRawTransaction := fun _ => Throw "Transaction simulation failed";
     Keypair_generate := Sample.burner;
     Math_random_base36 := "k3j9x2q1z";
     Date_now := fun _ => 0 |}.

(** A store with two sessions, the older one expiring at 901000 and the
    newer one at 1400000. *)
Definition two_sessions : Js.Map Session :=
  snd (Sample.create
         {| getSignatureStatus := fun _ _ => Resolve None;
            getTokenAccountBalance := fun _ _ => Resolve 0;
            new_PrivacyCash := fun _ _ => Resolve tt;
            depositSPL := fun _ _ => Resolve "deposit-signature";
            withdrawSPL := fun _ _ _ => Resolve "withdrawal-signature";
            fetch_device := fun _ _ _ => Resolve Sample.device;
            sendRawTransaction := fun _ => Resolve "relayed-signature";
            Keypair_generate :=
              {| publicKey := "Burner22222222222222222222222222222222222222";
                 secretKey := [4; 5; 6] |};
            Math_random_base36 := "a1b2c3d4e";
            Date_now := fun _ => 500000 |}
         Sample.store).

End Scenario.

(** ** Facts about the runtime *)

Module BufferFacts.
Import Buffer.

Lemma in_below (n : nat) (b : Z) : 0 <= b < Z.of_nat n -> In b (below n).
Proof.
  intros Hb. unfold below.
  replace b with (Z.of_nat (Z.to_nat b)) by lia.
  apply in_map, in_seq. lia.
Qed.

Lemma check_below (n : nat) (P : Z -> bool) :
  forallb P (below n) = true ->
  forall b, 0 <= b < Z.of_nat n -> P b = true.
Proof.
  intros H b Hb. rewrite forallb_forall in H. apply H, in_below, Hb.
Qed.

Lemma check_below2 (n m : nat) (P : Z -> Z -> bool) :
  forallb (fun a => forallb (P a) (below m)) (below n) = true ->
  forall a b, 0 <= a < Z.of_nat n -> 0 <= b < Z.of_nat m -> P a b = true.
Proof.
  intros H a b Ha Hb.
  apply (check_below m (P a)); [|exact Hb].
  apply (check_below n (fun a => forallb (P a) (below m))); assumption.
Qed.

Ltac by_cases2 n m P :=
  let H := fresh in
  assert (H : forall a b, 0 <= a < Z.of_nat n -> 0 <= b < Z.of_nat m ->
                          P a b = true)
    by (apply check_below2; vm_compute; reflexivity);
  intros a b Ha Hb; specialize (H a b Ha Hb); cbv beta in H.

Lemma digit_roundtrip (v : Z) :
  0 <= v < 64 ->
  unbase64 (base64_digit v) = Some v /\
  Ascii.eqb (base64_digit v) "=" = false.
Proof.
  intros Hv.
  assert (H : (match unbase64 (base64_digit v) with
               | Some u => u =? v
               | None => false
               end && negb (Ascii.eqb (base64_digit v) "="))%bool = true).
  { revert v Hv.
    apply (check_below 64
             (fun v => (match unbase64 (base64_digit v) with
                        | Some u => u =? v
                        | None => false
                        end && negb (Ascii.eqb (base64_digit v) "="))%bool)).
    vm_compute. reflexivity. }
  apply andb_true_iff in H. destruct H as [H1 H2].
  destruct (unbase64 (base64_digit v)) as [u|]; [|discriminate].
  apply Z.eqb_eq in H1. subst u.
  apply negb_true_iff in H2. split; [reflexivity | exact H2].
Qed.

Lemma enc_range (a b : Z) :
  is_byte a -> is_byte b ->
  0 <= enc1 a < 64 /\ 0 <= enc2 a b < 64 /\ 0 <= enc3 a b < 64 /\
  0 <= enc4 a < 64.
Proof.
  revert a b.
  by_cases2 256%nat 256%nat
    (fun a b => ((0 <=? enc1 a) && (enc1 a <? 64) &&
                 (0 <=? enc2 a b) && (enc2 a b <? 64) &&
                 (0 <=? enc3 a b) && (enc3 a b <? 64) &&
                 (0 <=? enc4 a) && (enc4 a <? 64))%bool).
  repeat (apply andb_true_iff in H; destruct H as [H ?]).
  repeat match goal with
         | X : (_ <=? _) = true |- _ => apply Z.leb_le in X
         | X : (_ <? _) = true |- _ => apply Z.ltb_lt in X
         end.
  lia.
Qed.

Lemma byte1_enc (a b : Z) :
  is_byte a -> is_byte b -> byte1 (enc1 a) (enc2 a b) = a.
Proof.
  revert a b.
  by_cases2 256%nat 256%nat (fun a b => byte1 (enc1 a) (enc2 a b) =? a).
  apply Z.eqb_eq, H.
Qed.

Lemma enc2_low (a b : Z) :
  is_byte a -> is_byte b -> Z.land (enc2 a b) 15 = Z.shiftr b 4.
Proof.
  revert a b.
  by_cases2 256%nat 256%nat
    (fun a b => Z.land (enc2 a b) 15 =? Z.shiftr b 4).
  apply Z.eqb_eq, H.
Qed.

Lemma byte2_enc3 (b c : Z) :
  is_byte b -> is_byte c ->
  Z.lor (Z.shiftl (Z.shiftr b 4) 4) (Z.shiftr (Z.land (enc3 b c) 60) 2) = b.
Proof.
  revert b c.
  by_cases2 256%nat 256%nat
    (fun b c =>
       Z.lor (Z.shiftl (Z.shiftr b 4) 4) (Z.shiftr (Z.land (enc3 b c) 60) 2)
       =? b).
  apply Z.eqb_eq, H.
Qed.

Lemma byte2_enc (a b c : Z) :
  is_byte a -> is_byte b -> is_byte c -> byte2 (enc2 a b) (enc3 b c) = b.
Proof.
  intros Ha Hb Hc. unfold byte2.
  rewrite (enc2_low a b Ha Hb). apply byte2_enc3; assumption.
Qed.

Lemma byte3_enc (b c : Z) :
  is_byte b -> is_byte c -> byte3 (enc3 b c) (enc4 c) = c.
Proof.
  revert b c.
  by_cases2 256%nat 256%nat (fun b c => byte3 (enc3 b c) (enc4 c) =? c).
  apply Z.eqb_eq, H.
Qed.

Lemma low_byte_of_ascii (c : ascii) : low_byte (Z.of_N (N_of_ascii c)) = c.
Proof. destruct c as [[] [] [] [] [] [] [] []]; reflexivity. Qed.

Lemma sextets_digit (v : Z) (s : string) :
  0 <= v < 64 ->
  sextets (Js.units (String (base64_digit v) s)) = v :: sextets (Js.units s).
Proof.
  intros Hv. destruct (digit_roundtrip v Hv) as [Hu Hp].
  cbn [sextets Js.units]. rewrite low_byte_of_ascii, Hp, Hu. reflexivity.
Qed.

Lemma is_byte_0 : is_byte 0.
Proof. unfold is_byte. lia. Qed.

(** Decoding the base64 text of a byte sequence gives the sequence back. *)
Lemma from_base64_to_base64_bounded (n : nat) :
  forall bytes, (length bytes <= n)%nat -> Forall is_byte bytes ->
                from_base64 (Js.units (to_base64 bytes)) = bytes.
Proof.
  pose proof is_byte_0 as H0.
  induction n as [|n IH]; intros bytes Hlen Hbytes.
  - destruct bytes; [reflexivity | simpl in Hlen; lia].
  - destruct bytes as [|a [|b [|c rest]]]; [reflexivity | | |].
    + inversion Hbytes as [|? ? Ha _]; subst.
      destruct (enc_range a 0 Ha H0) as (R1 & R2 & _).
      unfold from_base64. cbn [to_base64].
      rewrite (sextets_digit _ _ R1).
      pose proof (enc_range a 0 Ha H0) as (_ & R2' & _).
      rewrite (sextets_digit _ _ R2').
      cbn [sextets Ascii.eqb Bool.eqb decode_groups].
      rewrite (byte1_enc a 0 Ha H0). reflexivity.
    + inversion Hbytes as [|? ? Ha Hr]; subst.
      inversion Hr as [|? ? Hb _]; subst.
      destruct (enc_range a b Ha Hb) as (R1 & R2 & _).
      destruct (enc_range b 0 Hb H0) as (_ & _ & R3 & _).
      unfold from_base64. cbn [to_base64].
      rewrite (sextets_digit _ _ R1), (sextets_digit _ _ R2),
        (sextets_digit _ _ R3).
      cbn [sextets Ascii.eqb Bool.eqb decode_groups].
      rewrite (byte1_enc a b Ha Hb), (byte2_enc a b 0 Ha Hb H0). reflexivity.
    + inversion Hbytes as [|? ? Ha Hr]; subst.
      inversion Hr as [|? ? Hb Hr']; subst.
      inversion Hr' as [|? ? Hc Hrest]; subst.
      destruct (enc_range a b Ha Hb) as (R1 & R2 & _).
      destruct (enc_range b c Hb Hc) as (_ & _ & R3 & _).
      destruct (enc_range c 0 Hc H0) as (_ & _ & _ & R4).
      unfold from_base64. cbn [to_base64].
      rewrite (sextets_digit _ _ R1), (sextets_digit _ _ R2),
        (sextets_digit _ _ R3), (sextets_digit _ _ R4).
      cbn [decode_groups].
      rewrite (byte1_enc a b Ha Hb), (byte2_enc a b c Ha Hb Hc),
        (byte3_enc b c Hb Hc).
      do 3 f_equal. apply IH; [simpl in Hlen; lia | exact Hrest].
Qed.

Lemma from_base64_to_base64 (bytes : list Z) :
  Forall is_byte bytes -> from_base64 (Js.units (to_base64 bytes)) = bytes.
Proof. apply (from_base64_to_base64_bounded (length bytes)). lia. Qed.

(** A code unit above 255 is read by its low byte: U+0141 reads as [A]. *)
Example wide_unit_is_read_by_its_low_byte :
  from_base64 (321 :: Js.units "QID") = [1; 2; 3].
Proof. reflexivity. Qed.

Lemma from_array_bytes (bytes : list Z) :
  Forall is_byte bytes -> from_array bytes = bytes.
Proof.
  unfold from_array. induction 1 as [|b rest Hb _ IH]; [reflexivity|].
  cbn [map]. rewrite IH. f_equal.
  change 255 with (Z.ones 8). rewrite Z.land_ones by lia.
  apply Z.mod_small. exact Hb.
Qed.

End BufferFacts.

(** ** The computations of a handler *)

Section RunFacts.

Context {A B : Type}.

Lemma outcome_bind (m : Run A) (k : A -> Run B) :
  outcome (bind m k) =
  match outcome m with
  | Resolve a => outcome (k a)
  | Throw e => Throw e
  end.
Proof.
  destruct m as [[a|e] t]; cbn; [destruct (k a)|]; reflexivity.
Qed.

Lemma trace_bind (m : Run A) (k : A -> Run B) :
  trace (bind m k) =
  match outcome m with
  | Resolve a => trace m ++ trace (k a)
  | Throw e => trace m
  end.
Proof.
  destruct m as [[a|e] t]; cbn; [destruct (k a)|]; reflexivity.
Qed.

Lemma run_eta (m : Run A) : m = (outcome m, trace m).
Proof. destruct m; reflexivity. Qed.

Lemma Forall_trace_bind (P : Event -> Prop) (m : Run A) (k : A -> Run B) :
  Forall P (trace m) -> (forall a, Forall P (trace (k a))) ->
  Forall P (trace (bind m k)).
Proof.
  intros Hm Hk. rewrite trace_bind. destruct (outcome m); [|exact Hm].
  apply Forall_app. split; [exact Hm | apply Hk].
Qed.

End RunFacts.

(** ** The Confirmation Waiter *)

Section Waiter.

Variable w : World.
Variable signature : string.

Let call := getSignatureStatus_call signature.

Lemma own_failure_is_rethrown :
  rethrow_on_chain_failure "Funding transaction failed on-chain" =
  throw "Funding transaction failed on-chain".
Proof. reflexivity. Qed.

(** One iteration of the loop, by what the status query answers. *)
Lemma confirmation_loop_step (n attempt : nat) :
  confirmation_loop w signature (S n) attempt =
  match getSignatureStatus w signature attempt with
  | Resolve status =>
      if confirmed_or_finalized status then
        match status_err status with
        | None => (Resolve true, [call])
        | Some _ => (Throw "Funding transaction failed on-chain", [call])
        end
      else goes_on w signature n attempt
  | Throw message =>
      if Js.includes "failed on-chain" message
      then (Throw message, [call])
      else goes_on w signature n attempt
  end.
Proof.
  unfold goes_on. fold call. cbn [confirmation_loop]. unfold poll_signature.
  destruct (getSignatureStatus w signature attempt) as [status|message].
  - unfold bind at 3. unfold bind at 2. cbn [emit await].
    destruct (confirmed_or_finalized status).
    + destruct (status_err status); [|reflexivity].
      cbn [throw app try_catch]. rewrite own_failure_is_rethrown. reflexivity.
    + cbn. destruct (confirmation_loop w signature n (S attempt)); reflexivity.
  - cbn. unfold rethrow_on_chain_failure.
    destruct (Js.includes "failed on-chain" message); cbn; [reflexivity|].
    destruct (confirmation_loop w signature n (S attempt)); reflexivity.
Qed.

Lemma retries_snoc (k : nat) :
  confirmation_retries signature (S k) =
  confirmation_retries signature k ++ [call; setTimeout_wait 1000].
Proof.
  unfold confirmation_retries. cbn [repeat].
  rewrite repeat_cons, concat_app. cbn [concat].
  rewrite app_nil_r. reflexivity.
Qed.

Lemma transient_step (n attempt : nat) :
  transient w signature attempt = true ->
  confirmation_loop w signature (S n) attempt = goes_on w signature n attempt.
Proof.
  unfold transient. intros H. rewrite confirmation_loop_step.
  destruct (getSignatureStatus w signature attempt) as [status|message];
    apply negb_true_iff in H; rewrite H; reflexivity.
Qed.

(** After [k] transient attempts the loop stands at attempt [k]. *)
Lemma confirmation_loop_prefix (k n : nat) :
  (forall j, (j < k)%nat -> transient w signature j = true) ->
  confirmation_loop w signature (k + n) 0 =
  (outcome (confirmation_loop w signature n k),
   confirmation_retries signature k
     ++ trace (confirmation_loop w signature n k)).
Proof.
  revert n. induction k as [|k IH]; intros n Hk.
  - apply run_eta.
  - replace (S k + n)%nat with (k + S n)%nat by lia.
    rewrite IH by (intros; apply Hk; lia).
    rewrite (transient_step n k) by (apply Hk; lia).
    unfold goes_on. cbn [outcome trace fst snd]. fold call.
    rewrite retries_snoc, <- app_assoc. reflexivity.
Qed.

(** Either every one of the first [n] attempts is transient, or there is a
    first one that is not. *)
Lemma first_not_transient (n : nat) :
  (forall j, (j < n)%nat -> transient w signature j = true) \/
  (exists k, (k < n)%nat /\ transient w signature k = false /\
             forall j, (j < k)%nat -> transient w signature j = true).
Proof.
  induction n as [|n [IH|(k & Hk & Hf & Hb)]].
  - left. intros j Hj. lia.
  - destruct (transient w signature n) eqn:E.
    + left. intros j Hj. destruct (Nat.eq_dec j n); [subst; exact E|].
      apply IH. lia.
    + right. exists n. repeat split; [lia | exact E | exact IH].
  - right. exists k. repeat split; [lia | exact Hf | exact Hb].
Qed.

(** The loop runs out only when all its attempts were transient. *)
Lemma confirmation_loop_exhausted (n : nat) :
  (forall j, (j < n)%nat -> transient w signature j = true) ->
  confirmation_loop w signature n 0 =
  (Resolve false, confirmation_retries signature n).
Proof.
  intros H. replace n with (n + 0)%nat at 1 by lia.
  rewrite confirmation_loop_prefix by exact H.
  cbn. rewrite app_nil_r. reflexivity.
Qed.

(** The loop leaves with [confirmed = true] only on a confirmed or finalized
    status without error, and that attempt is its last request. *)
Lemma confirmation_loop_confirmed (n : nat) :
  outcome (confirmation_loop w signature n 0) = Resolve true ->
  exists k value,
    (k < n)%nat /\
    getSignatureStatus w signature k = Resolve (Some value) /\
    confirmed_or_finalized (Some value) = true /\
    err value = None /\
    trace (confirmation_loop w signature n 0)
    = confirmation_retries signature k ++ [call].
Proof.
  destruct (first_not_transient n) as [Hall|(k & Hk & Hf & Hb)].
  - rewrite (confirmation_loop_exhausted n Hall). discriminate.
  - replace n with (k + S (n - S k))%nat by lia.
    rewrite (confirmation_loop_prefix k _ Hb), confirmation_loop_step.
    unfold transient in Hf. cbn [outcome trace fst snd].
    destruct (getSignatureStatus w signature k) as [status|message] eqn:E;
      apply negb_false_iff in Hf; rewrite Hf.
    + destruct status as [value|]; [|discriminate Hf].
      cbn [status_err]. destruct (err value) eqn:Eerr; [discriminate|].
      intros _. exists k, value.
      split; [lia|]. split; [exact E|]. split; [exact Hf|].
      split; [exact Eerr | reflexivity].
    + discriminate.
Qed.

Lemma wait_for_funding_unfold :
  wait_for_funding w signature =
  match outcome (confirmation_loop w signature 30 0) with
  | Resolve true => (Resolve tt, trace (confirmation_loop w signature 30 0))
  | Resolve false =>
      (Throw "Funding transaction did not confirm within 30 seconds",
       trace (confirmation_loop w signature 30 0))
  | Throw message =>
      (Throw message, trace (confirmation_loop w signature 30 0))
  end.
Proof.
  unfold wait_for_funding.
  destruct (confirmation_loop w signature 30 0) as [[[|]|message] t];
    cbn; rewrite ?app_nil_r; reflexivity.
Qed.

(** The waiter as seen from the first attempt [k] that is reached. *)
Lemma wait_for_funding_from (k : nat) :
  (k < 30)%nat ->
  (forall j, (j < k)%nat -> transient w signature j = true) ->
  wait_for_funding w signature =
  match outcome (confirmation_loop w signature (30 - k) k) with
  | Resolve true =>
      (Resolve tt,
       confirmation_retries signature k
         ++ trace (confirmation_loop w signature (30 - k) k))
  | Resolve false =>
      (Throw "Funding transaction did not confirm within 30 seconds",
       confirmation_retries signature k
         ++ trace (confirmation_loop w signature (30 - k) k))
  | Throw message =>
      (Throw message,
       confirmation_retries signature k
         ++ trace (confirmation_loop w signature (30 - k) k))
  end.
Proof.
  intros Hk Hb. rewrite wait_for_funding_unfold.
  pose proof (confirmation_loop_prefix k (30 - k) Hb) as P.
  replace (k + (30 - k))%nat with 30%nat in P by lia.
  rewrite P. reflexivity.
Qed.

End Waiter.

(** C5. The Confirmation Waiter succeeds only at an attempt whose status is
    confirmed or finalized and carries no error, and that attempt is its last
    request; for a signature whose status carries an error whenever one is
    shown it never succeeds, whatever the confirmation level; and the first
    attempt it reaches that shows a confirmed or finalized status with an
    error makes it fail at once, with no wait and no request after it. *)
Theorem waiter_rejects_failed_transaction (w : World) (signature : string) :
  (forall u,
     outcome (wait_for_funding w signature) = Resolve u ->
     exists k value,
       (k < 30)%nat /\
       getSignatureStatus w signature k = Resolve (Some value) /\
       confirmed_or_finalized (Some value) = true /\
       err value = None /\
       trace (wait_for_funding w signature)
       = confirmation_retries signature k
           ++ [getSignatureStatus_call signature]) /\
  (carries_error w signature ->
   resolved (outcome (wait_for_funding w signature)) = false) /\
  (forall k value e,
     (k < 30)%nat ->
     (forall j, (j < k)%nat -> transient w signature j = true) ->
     getSignatureStatus w signature k = Resolve (Some value) ->
     confirmed_or_finalized (Some value) = true ->
     err value = Some e ->
     wait_for_funding w signature
     = (Throw "Funding transaction failed on-chain",
        confirmation_retries signature k
          ++ [getSignatureStatus_call signature])).
Proof.
  assert (Hsucc : forall u,
     outcome (wait_for_funding w signature) = Resolve u ->
     exists k value,
       (k < 30)%nat /\
       getSignatureStatus w signature k = Resolve (Some value) /\
       confirmed_or_finalized (Some value) = true /\
       err value = None /\
       trace (wait_for_funding w signature)
       = confirmation_retries signature k
           ++ [getSignatureStatus_call signature]).
  { intros u. rewrite wait_for_funding_unfold.
    destruct (outcome (confirmation_loop w signature 30 0))
      as [[|]|message] eqn:E; try discriminate.
    intros _. apply confirmation_loop_confirmed in E.
    destruct E as (k & value & Hk & Hs & Hc & He & Ht).
    exists k, value. repeat (split; [assumption|]). exact Ht. }
  split; [exact Hsucc|]. split.
  - intros Hcarries.
    destruct (outcome (wait_for_funding w signature)) as [u|message] eqn:E;
      [|reflexivity].
    destruct (Hsucc u eq_refl) as (k & value & _ & Hs & _ & He & _).
    elim (Hcarries k value Hs He).
  - intros k value e Hk Hb Hs Hc He.
    rewrite (wait_for_funding_from w signature k Hk Hb).
    replace (30 - k)%nat with (S (29 - k)) by lia.
    rewrite confirmation_loop_step, Hs, Hc. cbn [status_err].
    rewrite He. reflexivity.
Qed.

(** The failed funding transaction of [Sample.funding_failed]: the first
    status is finalized with an error, and the waiter stops there.  In
    [Sample.funding_processed_failed] the error shows at the processed
    level only, and the waiter does not succeed either. *)
Lemma waiter_rejects_failed_transaction_witness :
  wait_for_funding Sample.funding_failed "sig"
  = (Throw "Funding transaction failed on-chain",
     [getSignatureStatus_call "sig"]) /\
  carries_error Sample.funding_processed_failed "sig" /\
  resolved (outcome (wait_for_funding Sample.funding_processed_failed "sig"))
  = false.
Proof.
  assert (H : carries_error Sample.funding_processed_failed "sig").
  { intros k value Hs. injection Hs as <-. discriminate. }
  split; [|split; [exact H|]].
  - refine (proj2 (proj2
             (waiter_rejects_failed_transaction Sample.funding_failed "sig"))
             0%nat _ "InstructionError" _ _ eq_refl eq_refl eq_refl).
    + lia.
    + intros j Hj. lia.
  - exact (proj1 (proj2
             (waiter_rejects_failed_transaction
                Sample.funding_processed_failed "sig")) H).
Defined.

(** C9. In the confirmation loop an exception of the status query is
    classified by one test, whether its message contains "failed on-chain":
    if it does the loop ends at once with that exception, otherwise the loop
    waits and goes on with the next attempt; and at the first such terminal
    exception the waiter reaches, it fails with it, that query being its last
    request. *)
Theorem query_exception_classified_by_message (w : World)
    (signature message : string) :
  (forall n attempt,
     getSignatureStatus w signature attempt = Throw message ->
     confirmation_loop w signature (S n) attempt =
     if Js.includes "failed on-chain" message
     then (Throw message, [getSignatureStatus_call signature])
     else goes_on w signature n attempt) /\
  (forall k,
     (k < 30)%nat ->
     (forall j, (j < k)%nat -> transient w signature j = true) ->
     getSignatureStatus w signature k = Throw message ->
     Js.includes "failed on-chain" message = true ->
     wait_for_funding w signature
     = (Throw message,
        confirmation_retries signature k
          ++ [getSignatureStatus_call signature])).
Proof.
  split.
  - intros n attempt H. rewrite confirmation_loop_step, H. reflexivity.
  - intros k Hk Hb Hs Hi.
    rewrite (wait_for_funding_from w signature k Hk Hb).
    replace (30 - k)%nat with (S (29 - k)) by lia.
    rewrite confirmation_loop_step, Hs, Hi. reflexivity.
Qed.

(** In [Sample.rpc_errors] the first exception is swallowed and the second,
    which mentions an on-chain failure, ends the wait. *)
Lemma query_exception_classified_by_message_witness :
  confirmation_loop Sample.rpc_errors "sig" 30 0
  = goes_on Sample.rpc_errors "sig" 29 0 /\
  wait_for_funding Sample.rpc_errors "sig"
  = (Throw "simulation failed on-chain",
     [getSignatureStatus_call "sig"; setTimeout_wait 1000;
      getSignatureStatus_call "sig"]).
Proof.
  split.
  - exact (proj1 (query_exception_classified_by_message Sample.rpc_errors
                    "sig" "socket hang up") 29%nat 0%nat eq_refl).
  - refine (proj2 (query_exception_classified_by_message Sample.rpc_errors
                     "sig" "simulation failed on-chain")
              1%nat _ _ eq_refl eq_refl).
    + lia.
    + intros j Hj. assert (j = 0%nat) as -> by lia. reflexivity.
Defined.

(** ** The Balance Verifier *)

(** A number below 2^53 in magnitude is written by its decimal digits. *)
Lemma Number_toString_safe (n : Z) :
  Z.abs n < 2 ^ 53 ->
  Js.Number_toString n = NilZero.string_of_int (Z.to_int n).
Proof.
  intros H. unfold Js.Number_toString.
  replace (Z.abs n <? 2 ^ 53) with true; [reflexivity|].
  symmetry. apply Z.ltb_lt. exact H.
Qed.

(** Beyond, by the shortest digits that read back as the number: 2^64. *)
Example Number_toString_2_64 :
  Js.Number_toString (2 ^ 64) = "18446744073709552000".
Proof. reflexivity. Qed.

Section Verifier.

Variable cfg : Config.
Variable w : World.
Variable burnerATA : PublicKey.

Let call := getTokenAccountBalance_call burnerATA.

(** One iteration of the loop, by what the balance query answers. *)
Lemma balance_loop_step (n attempt : nat) (usdcBalance : Z) :
  balance_loop cfg w burnerATA (S n) attempt usdcBalance =
  match getTokenAccountBalance w burnerATA attempt with
  | Resolve amount =>
      if amount >=? PAYMENT_AMOUNT cfg then (Resolve amount, [call])
      else
        (outcome (balance_loop cfg w burnerATA n (S attempt) amount),
         call :: setTimeout_wait 2000
           :: trace (balance_loop cfg w burnerATA n (S attempt) amount))
  | Throw _ =>
      (outcome (balance_loop cfg w burnerATA n (S attempt) usdcBalance),
       call :: setTimeout_wait 2000
         :: trace (balance_loop cfg w burnerATA n (S attempt) usdcBalance))
  end.
Proof.
  cbn [balance_loop]. unfold poll_balance.
  destruct (getTokenAccountBalance w burnerATA attempt) as [amount|message].
  - cbn. destruct (amount >=? PAYMENT_AMOUNT cfg); cbn; [reflexivity|].
    destruct (balance_loop cfg w burnerATA n (S attempt) amount); reflexivity.
  - cbn.
    destruct (balance_loop cfg w burnerATA n (S attempt) usdcBalance);
      reflexivity.
Qed.

Lemma balance_retries_snoc (k : nat) :
  balance_retries burnerATA (S k) =
  balance_retries burnerATA k ++ [call; setTimeout_wait 2000].
Proof.
  unfold balance_retries. cbn [repeat].
  rewrite repeat_cons, concat_app. cbn [concat].
  rewrite app_nil_r. reflexivity.
Qed.

Lemma short_step (n attempt : nat) (usdcBalance : Z) :
  short cfg w burnerATA attempt = true ->
  balance_loop cfg w burnerATA (S n) attempt usdcBalance =
  let usdcBalance' :=
    match getTokenAccountBalance w burnerATA attempt with
    | Resolve amount => amount
    | Throw _ => usdcBalance
    end in
  (outcome (balance_loop cfg w burnerATA n (S attempt) usdcBalance'),
   call :: setTimeout_wait 2000
     :: trace (balance_loop cfg w burnerATA n (S attempt) usdcBalance')).
Proof.
  unfold short. intros H. rewrite balance_loop_step.
  destruct (getTokenAccountBalance w burnerATA attempt) as [amount|message];
    [|reflexivity].
  apply Z.ltb_lt in H.
  replace (amount >=? PAYMENT_AMOUNT cfg) with false; [reflexivity|].
  symmetry. rewrite Z.geb_leb. apply Z.leb_gt. exact H.
Qed.

(** After [k] short attempts the loop stands at attempt [k], its variable
    holding what the most recent successful query returned. *)
Lemma balance_loop_prefix (k n : nat) :
  (forall j, (j < k)%nat -> short cfg w burnerATA j = true) ->
  balance_loop cfg w burnerATA (k + n) 0 0 =
  (outcome (balance_loop cfg w burnerATA n k (last_observed w burnerATA k)),
   balance_retries burnerATA k
     ++ trace (balance_loop cfg w burnerATA n k (last_observed w burnerATA k))).
Proof.
  revert n. induction k as [|k IH]; intros n Hk.
  - apply run_eta.
  - replace (S k + n)%nat with (k + S n)%nat by lia.
    rewrite IH by (intros; apply Hk; lia).
    rewrite (short_step n k) by (apply Hk; lia).
    cbn [outcome trace fst snd last_observed]. fold call.
    rewrite balance_retries_snoc, <- app_assoc. reflexivity.
Qed.

Lemma first_not_short (n : nat) :
  (forall j, (j < n)%nat -> short cfg w burnerATA j = true) \/
  (exists k, (k < n)%nat /\ short cfg w burnerATA k = false /\
             forall j, (j < k)%nat -> short cfg w burnerATA j = true).
Proof.
  induction n as [|n [IH|(k & Hk & Hf & Hb)]].
  - left. intros j Hj. lia.
  - destruct (short cfg w burnerATA n) eqn:E.
    + left. intros j Hj. destruct (Nat.eq_dec j n); [subst; exact E|].
      apply IH. lia.
    + right. exists n. repeat split; [lia | exact E | exact IH].
  - right. exists k. repeat split; [lia | exact Hf | exact Hb].
Qed.

(** The loop runs out only when all its attempts were short. *)
Lemma balance_loop_exhausted (n : nat) :
  (forall j, (j < n)%nat -> short cfg w burnerATA j = true) ->
  balance_loop cfg w burnerATA n 0 0 =
  (Resolve (last_observed w burnerATA n), balance_retries burnerATA n).
Proof.
  intros H. replace n with (n + 0)%nat at 1 by lia.
  rewrite balance_loop_prefix by exact H.
  cbn. rewrite app_nil_r. reflexivity.
Qed.

(** The loop is left early at the first attempt that is not short. *)
Lemma balance_loop_first_sufficient (n k : nat) (amount : Z) :
  (k < n)%nat ->
  (forall j, (j < k)%nat -> short cfg w burnerATA j = true) ->
  getTokenAccountBalance w burnerATA k = Resolve amount ->
  PAYMENT_AMOUNT cfg <= amount ->
  balance_loop cfg w burnerATA n 0 0 =
  (Resolve amount, balance_retries burnerATA k ++ [call]).
Proof.
  intros Hk Hb Hq Ha.
  replace n with (k + S (n - S k))%nat by lia.
  rewrite (balance_loop_prefix k _ Hb), balance_loop_step, Hq.
  replace (amount >=? PAYMENT_AMOUNT cfg) with true; [reflexivity|].
  symmetry. rewrite Z.geb_leb. apply Z.leb_le. exact Ha.
Qed.

Lemma verify_balance_unfold :
  verify_balance cfg w burnerATA =
  match outcome (balance_loop cfg w burnerATA 10 0 0) with
  | Resolve usdcBalance =>
      (if usdcBalance <? PAYMENT_AMOUNT cfg
       then Throw (insufficient_usdc cfg usdcBalance)
       else Resolve usdcBalance,
       trace (balance_loop cfg w burnerATA 10 0 0))
  | Throw message =>
      (Throw message, trace (balance_loop cfg w burnerATA 10 0 0))
  end.
Proof.
  unfold verify_balance.
  destruct (balance_loop cfg w burnerATA 10 0 0) as [[usdcBalance|message] t];
    cbn; [|reflexivity].
  destruct (usdcBalance <? PAYMENT_AMOUNT cfg); cbn; rewrite app_nil_r;
    reflexivity.
Qed.

(** The loop never throws; it ends with a sufficient amount just read, or
    runs out with what the most recent successful query returned. *)
Lemma balance_loop_outcome :
  exists usdcBalance,
    outcome (balance_loop cfg w burnerATA 10 0 0) = Resolve usdcBalance /\
    (PAYMENT_AMOUNT cfg <= usdcBalance \/
     usdcBalance = last_observed w burnerATA 10).
Proof.
  destruct (first_not_short 10) as [Hall|(k & Hk & Hf & Hb)].
  - rewrite (balance_loop_exhausted 10 Hall).
    eexists. split; [reflexivity | right; reflexivity].
  - unfold short in Hf.
    destruct (getTokenAccountBalance w burnerATA k) as [amount|] eqn:Hq;
      [|discriminate].
    apply Z.ltb_ge in Hf.
    rewrite (balance_loop_first_sufficient 10 k amount Hk Hb Hq Hf).
    exists amount. split; [reflexivity | left; exact Hf].
Qed.

(** When every attempt leaves the variable below the price, the verifier
    uses up its attempts and throws with the last amount observed. *)
Lemma verify_balance_exhausted :
  (forall k, (1 <= k <= 10)%nat ->
             last_observed w burnerATA k < PAYMENT_AMOUNT cfg) ->
  verify_balance cfg w burnerATA
  = (Throw (insufficient_usdc cfg (last_observed w burnerATA 10)),
     balance_retries burnerATA 10).
Proof.
  intros Hlow.
  assert (Hall : forall j, (j < 10)%nat -> short cfg w burnerATA j = true).
  { intros j Hj. unfold short.
    destruct (getTokenAccountBalance w burnerATA j) as [amount|] eqn:Hq;
      [|reflexivity].
    apply Z.ltb_lt. specialize (Hlow (S j)). cbn [last_observed] in Hlow.
    rewrite Hq in Hlow. apply Hlow. lia. }
  rewrite verify_balance_unfold.
  rewrite (balance_loop_exhausted 10 Hall).
  cbn [outcome trace fst snd].
  replace (last_observed w burnerATA 10 <? PAYMENT_AMOUNT cfg) with true;
    [reflexivity|].
  symmetry. apply Z.ltb_lt. apply Hlow. lia.
Qed.

Lemma last_observed_none (k : nat) :
  (forall j, (j < k)%nat ->
             exists message,
               getTokenAccountBalance w burnerATA j = Throw message) ->
  last_observed w burnerATA k = 0.
Proof.
  induction k as [|k IH]; intros H; [reflexivity|].
  cbn [last_observed]. destruct (H k) as [message ->]; [lia|].
  apply IH. intros j Hj. apply H. lia.
Qed.

End Verifier.

(** C4. The Balance Verifier succeeds only with an observed amount that is
    at least the required one; at the first attempt whose amount meets the
    requirement it returns that amount, the query being its last request;
    and when each of its ten attempts leaves the observed balance below the
    requirement it fails, after the ten queries, with the message
    "Insufficient USDC. Have: <observed>, Need: <required>", the two amounts
    written as the program writes numbers: for amounts below 2^53 in
    magnitude, by their decimal digits. *)
Theorem balance_verifier_threshold (cfg : Config) (w : World)
    (burnerATA : PublicKey) :
  (forall observed,
     outcome (verify_balance cfg w burnerATA) = Resolve observed ->
     PAYMENT_AMOUNT cfg <= observed) /\
  (forall k amount,
     (k < 10)%nat ->
     (forall j, (j < k)%nat -> short cfg w burnerATA j = true) ->
     getTokenAccountBalance w burnerATA k = Resolve amount ->
     PAYMENT_AMOUNT cfg <= amount ->
     verify_balance cfg w burnerATA
     = (Resolve amount,
        balance_retries burnerATA k
          ++ [getTokenAccountBalance_call burnerATA])) /\
  ((forall k, (1 <= k <= 10)%nat ->
              last_observed w burnerATA k < PAYMENT_AMOUNT cfg) ->
   let observed := last_observed w burnerATA 10 in
   let required := PAYMENT_AMOUNT cfg in
   verify_balance cfg w burnerATA
   = (Throw ("Insufficient USDC. Have: " ++ Js.Number_toString observed
             ++ ", Need: " ++ Js.Number_toString required)%string,
      balance_retries burnerATA 10) /\
   (Z.abs observed < 2 ^ 53 -> Z.abs required < 2 ^ 53 ->
    verify_balance cfg w burnerATA
    = (Throw ("Insufficient USDC. Have: "
              ++ NilZero.string_of_int (Z.to_int observed)
              ++ ", Need: "
              ++ NilZero.string_of_int (Z.to_int required))%string,
       balance_retries burnerATA 10))).
Proof.
  split; [|split].
  - intros observed. rewrite verify_balance_unfold.
    destruct (outcome (balance_loop cfg w burnerATA 10 0 0))
      as [usdcBalance|message]; [|discriminate].
    cbn [outcome fst].
    destruct (usdcBalance <? PAYMENT_AMOUNT cfg) eqn:E; [discriminate|].
    intros H. injection H as <-. apply Z.ltb_ge. exact E.
  - intros k amount Hk Hb Hq Ha. rewrite verify_balance_unfold.
    rewrite (balance_loop_first_sufficient cfg w burnerATA 10 k amount
               Hk Hb Hq Ha).
    cbn [outcome trace fst snd].
    replace (amount <? PAYMENT_AMOUNT cfg) with false; [reflexivity|].
    symmetry. apply Z.ltb_ge. exact Ha.
  - intros Hlow observed required.
    pose proof (verify_balance_exhausted cfg w burnerATA Hlow) as E.
    split; [exact E|]. intros Ho Hr. rewrite E.
    unfold insufficient_usdc. fold observed. fold required.
    rewrite (Number_toString_safe observed Ho).
    rewrite (Number_toString_safe required Hr). reflexivity.
Qed.

(** With the price at 1000000: a balance of 500000 at every attempt uses up
    the ten attempts and is reported, and so is the 250000 of a first query
    when the nine after it throw; a balance that reaches 1500000 at the
    third attempt is returned there. *)
Lemma balance_verifier_threshold_witness :
  verify_balance Sample.cfg Sample.underfunded "ata"
  = (Throw "Insufficient USDC. Have: 500000, Need: 1000000",
     balance_retries "ata" 10) /\
  verify_balance Sample.cfg Sample.flaky_balance "ata"
  = (Throw "Insufficient USDC. Have: 250000, Need: 1000000",
     balance_retries "ata" 10) /\
  verify_balance Sample.cfg Sample.funded_late "ata"
  = (Resolve 1500000,
     [getTokenAccountBalance_call "ata"; setTimeout_wait 2000;
      getTokenAccountBalance_call "ata"; setTimeout_wait 2000;
      getTokenAccountBalance_call "ata"]).
Proof.
  split; [|split].
  - refine (proj2 (proj2 (proj2 (balance_verifier_threshold Sample.cfg
                                   Sample.underfunded "ata")) _) _ _).
    + intros k Hk. destruct k as [|k]; [lia|]. cbn. lia.
    + cbn. lia.
    + cbn. lia.
  - refine (proj2 (proj2 (proj2 (balance_verifier_threshold Sample.cfg
                                   Sample.flaky_balance "ata")) _) _ _).
    + intros k Hk. destruct k as [|[|k]]; [lia | cbn; lia |].
      assert (H : forall j,
                last_observed Sample.flaky_balance "ata" (S j) = 250000).
      { induction j as [|j IH]; [reflexivity | exact IH]. }
      rewrite H. cbn. lia.
    + cbn. lia.
    + cbn. lia.
  - refine (proj1 (proj2 (balance_verifier_threshold Sample.cfg
                            Sample.funded_late "ata"))
              2%nat 1500000 _ _ eq_refl _).
    + lia.
    + intros j Hj. destruct j as [|[|j]]; [reflexivity | reflexivity | lia].
    + cbn. lia.
Defined.

(** C10. When the Balance Verifier fails, the amount in its message is what
    the most recent successful balance query returned (0 when none
    succeeded), which need not be the answer of the last attempt; if all ten
    queries throw, that amount is 0, and the verifier fails with it whenever
    the price is positive. *)
Theorem insufficient_funds_reports_last_observed (cfg : Config) (w : World)
    (burnerATA : PublicKey) :
  (forall message,
     outcome (verify_balance cfg w burnerATA) = Throw message ->
     message = insufficient_usdc cfg (last_observed w burnerATA 10)) /\
  ((forall k, (k < 10)%nat ->
              exists message,
                getTokenAccountBalance w burnerATA k = Throw message) ->
   last_observed w burnerATA 10 = 0 /\
   (0 < PAYMENT_AMOUNT cfg ->
    verify_balance cfg w burnerATA
    = (Throw (insufficient_usdc cfg 0), balance_retries burnerATA 10))).
Proof.
  split.
  - intros message. rewrite verify_balance_unfold.
    destruct (balance_loop_outcome cfg w burnerATA)
      as (usdcBalance & Hloop & Hcase).
    rewrite Hloop. cbn [outcome fst].
    destruct (usdcBalance <? PAYMENT_AMOUNT cfg) eqn:E; [|discriminate].
    apply Z.ltb_lt in E. destruct Hcase as [Hge | ->]; [lia|].
    intros H. injection H as <-. reflexivity.
  - intros Hthrow.
    pose proof (last_observed_none w burnerATA 10 Hthrow) as H0.
    split; [exact H0|]. intros Hpos.
    rewrite <- H0.
    apply verify_balance_exhausted.
    intros k Hk. rewrite (last_observed_none w burnerATA k); [exact Hpos|].
    intros j Hj. apply Hthrow. lia.
Qed.

(** In [Sample.flaky_balance] only the first query answers (250000): that
    amount is reported though nine failed queries follow.  In
    [Sample.balance_unavailable] no query answers and 0 is reported. *)
Lemma insufficient_funds_reports_last_observed_witness :
  outcome (verify_balance Sample.cfg Sample.flaky_balance "ata")
  = Throw "Insufficient USDC. Have: 250000, Need: 1000000" /\
  last_observed Sample.flaky_balance "ata" 10 = 250000 /\
  "Insufficient USDC. Have: 250000, Need: 1000000"
  = insufficient_usdc Sample.cfg
      (last_observed Sample.flaky_balance "ata" 10) /\
  verify_balance Sample.cfg Sample.balance_unavailable "ata"
  = (Throw "Insufficient USDC. Have: 0, Need: 1000000",
     balance_retries "ata" 10).
Proof.
  split; [reflexivity|]. split; [reflexivity|]. split.
  - exact (proj1 (insufficient_funds_reports_last_observed Sample.cfg
                    Sample.flaky_balance "ata") _ eq_refl).
  - refine (proj2 (proj2 (insufficient_funds_reports_last_observed Sample.cfg
                            Sample.balance_unavailable "ata") _) _).
    + intros k Hk. exists "fetch failed". reflexivity.
    + cbn. lia.
Defined.

(** ** The [sessions] map *)

Section MapFacts.

Context {V : Type}.

Lemma Map_get_delete (m : Js.Map V) (key key' : string) :
  Js.Map_get (Js.Map_delete m key) key' =
  if String.eqb key key' then None else Js.Map_get m key'.
Proof.
  unfold Js.Map_delete.
  induction m as [|[k v] m IH]; cbn [filter Js.Map_get fst].
  - destruct (String.eqb key key'); reflexivity.
  - destruct (String.eqb k key) eqn:Ek; cbn [negb Js.Map_get].
    + apply String.eqb_eq in Ek. subst k. rewrite IH.
      destruct (String.eqb key key'); reflexivity.
    + rewrite IH. destruct (String.eqb k key') eqn:Ek'; [|reflexivity].
      apply String.eqb_eq in Ek'. subst k.
      rewrite String.eqb_sym, Ek. reflexivity.
Qed.

Lemma Map_get_set (m : Js.Map V) (key key' : string) (value : V) :
  Js.Map_get (Js.Map_set m key value) key' =
  if String.eqb key key' then Some value else Js.Map_get m key'.
Proof.
  induction m as [|[k v] m IH]; cbn.
  - reflexivity.
  - destruct (String.eqb k key) eqn:Ek; cbn.
    + apply String.eqb_eq in Ek. subst k.
      destruct (String.eqb key key'); reflexivity.
    + rewrite IH. destruct (String.eqb k key') eqn:Ek'; [|reflexivity].
      apply String.eqb_eq in Ek'. subst k.
      rewrite String.eqb_sym, Ek. reflexivity.
Qed.

End MapFacts.

(** ** The Orchestrator *)

Section Orchestrator.

Variable cfg : Config.
Variable w : World.

Lemma privacy_relay_resolved (session : Session) :
  resolved (outcome (privacy_relay cfg w session)) =
  deposited cfg w session && withdrawn cfg w.
Proof.
  unfold privacy_relay, deposited, withdrawn. rewrite !outcome_bind. cbn.
  destruct (new_PrivacyCash w _ _); cbn; [|reflexivity].
  destruct (depositSPL w _ _); reflexivity.
Qed.

(** The pipeline resolves exactly when every stage does. *)
Lemma pipeline_resolved (session : Session)
    (fundingTxSignature : option string) :
  resolved (outcome (pipeline cfg w session fundingTxSignature)) =
  all_stages_succeeded cfg w session fundingTxSignature.
Proof.
  transitivity
    (funding_confirmed w fundingTxSignature
     && (balance_verified cfg w session
         && (resolved (outcome (privacy_relay cfg w session))
             && activation_issued cfg w))).
  2: { unfold all_stages_succeeded. rewrite privacy_relay_resolved.
       rewrite !andb_assoc. reflexivity. }
  unfold pipeline, funding_confirmed, balance_verified, activation_issued.
  rewrite outcome_bind.
  assert (Hrest :
    resolved
      (outcome
         (verify_balance cfg w (burnerATA session) ;;
          withdrawal <- privacy_relay cfg w session ;;
          activation <- issue_activation cfg w ;;
          ret (activation, withdrawal)))
    = resolved (outcome (verify_balance cfg w (burnerATA session)))
      && (resolved (outcome (privacy_relay cfg w session))
          && resolved (outcome (issue_activation cfg w)))).
  { rewrite outcome_bind.
    destruct (outcome (verify_balance cfg w (burnerATA session)));
      [|reflexivity].
    rewrite outcome_bind.
    destruct (outcome (privacy_relay cfg w session)); [|reflexivity].
    rewrite outcome_bind.
    destruct (outcome (issue_activation cfg w)); reflexivity. }
  destruct fundingTxSignature as [[|c signature]|]; cbn [outcome ret fst];
    try exact Hrest.
  destruct (outcome (wait_for_funding w (String c signature)));
    [exact Hrest | reflexivity].
Qed.

Lemma execute_store (sessionId : string) (c : ascii)
    (fundingTxSignature : option string) (sessions : Js.Map Session)
    (session : Session) :
  Js.Map_get sessions (String c sessionId) = Some session ->
  snd (fst (execute_privacy_transaction cfg w (Some (String c sessionId))
              fundingTxSignature sessions)) =
  if all_stages_succeeded cfg w session fundingTxSignature
  then Js.Map_delete sessions (String c sessionId)
  else sessions.
Proof.
  intros Hget. unfold execute_privacy_transaction. rewrite Hget.
  rewrite <- pipeline_resolved.
  destruct (pipeline cfg w session fundingTxSignature)
    as [[[[[deviceId deviceToken] deepLink] withdrawal_tx]|message] calls];
    reflexivity.
Qed.

Lemma execute_failure (sessionId : string) (c : ascii)
    (fundingTxSignature : option string) (sessions : Js.Map Session)
    (session : Session) :
  Js.Map_get sessions (String c sessionId) = Some session ->
  all_stages_succeeded cfg w session fundingTxSignature = false ->
  exists message,
    fst (fst (execute_privacy_transaction cfg w (Some (String c sessionId))
                fundingTxSignature sessions)) = json_error 500 message.
Proof.
  intros Hget. unfold execute_privacy_transaction. rewrite Hget.
  rewrite <- pipeline_resolved.
  destruct (pipeline cfg w session fundingTxSignature)
    as [[[[[deviceId deviceToken] deepLink] withdrawal_tx]|message] calls];
    [discriminate|].
  intros _. exists message. reflexivity.
Qed.

End Orchestrator.

(** C3. For a run of the Orchestrator on a session the store resolves: the
    entry is gone afterwards if and only if funding confirmation, balance
    verification, deposit, withdrawal and activation issuance all succeeded;
    when one of them fails the store is the one before the run, the session
    is still found under its id, and the caller gets an error. *)
Theorem session_deleted_iff_pipeline_succeeds (cfg : Config) (w : World)
    (c : ascii) (sessionId : string) (fundingTxSignature : option string)
    (sessions : Js.Map Session) (session : Session) :
  Js.Map_get sessions (String c sessionId) = Some session ->
  let run := execute_privacy_transaction cfg w (Some (String c sessionId))
               fundingTxSignature sessions in
  (Js.Map_get (snd (fst run)) (String c sessionId) = None <->
   all_stages_succeeded cfg w session fundingTxSignature = true) /\
  (all_stages_succeeded cfg w session fundingTxSignature = true ->
   snd (fst run) = Js.Map_delete sessions (String c sessionId)) /\
  (all_stages_succeeded cfg w session fundingTxSignature = false ->
   snd (fst run) = sessions /\
   Js.Map_get (snd (fst run)) (String c sessionId) = Some session /\
   exists message, fst (fst run) = json_error 500 message).
Proof.
  intros Hget run. subst run.
  rewrite (execute_store cfg w sessionId c fundingTxSignature sessions
             session Hget).
  destruct (all_stages_succeeded cfg w session fundingTxSignature) eqn:E.
  - rewrite Map_get_delete, String.eqb_refl.
    split; [split; reflexivity|]. split; [reflexivity | discriminate].
  - rewrite Hget. split; [split; discriminate|]. split; [discriminate|].
    intros _. split; [reflexivity|]. split; [reflexivity|].
    apply (execute_failure cfg w sessionId c fundingTxSignature sessions
             session Hget E).
Qed.

(** On [Sample.store]: a funded run removes the session; a run whose balance
    check fails leaves the store as it was. *)
Lemma session_deleted_iff_pipeline_succeeds_witness :
  Js.Map_get
    (snd (fst (execute_privacy_transaction Sample.cfg (Sample.happy 2000)
                 (Some Sample.sessionId) (Some "sig") Sample.store)))
    Sample.sessionId = None /\
  snd (fst (execute_privacy_transaction Sample.cfg Sample.underfunded
              (Some Sample.sessionId) (Some "sig") Sample.store))
  = Sample.store.
Proof.
  destruct (Js.Map_get Sample.store Sample.sessionId) as [session|] eqn:Hget;
    [|discriminate Hget].
  split.
  - apply (proj1 (session_deleted_iff_pipeline_succeeds Sample.cfg
                    (Sample.happy 2000) "s" "ession_1000_k3j9x2q1z"
                    (Some "sig") Sample.store session Hget)).
    injection Hget as <-. reflexivity.
  - apply (proj2 (proj2 (session_deleted_iff_pipeline_succeeds Sample.cfg
                    Sample.underfunded "s" "ession_1000_k3j9x2q1z"
                    (Some "sig") Sample.store session Hget))).
    injection Hget as <-. reflexivity.
Defined.

(** ** The Privacy Relay *)

Section Relay.

Variable cfg : Config.
Variable w : World.

Lemma no_pool_request (e : Event) :
  pool_amount e = None -> pays_human_amount cfg e.
Proof. intros H amount Ha. rewrite H in Ha. discriminate. Qed.

Lemma confirmation_loop_calls (signature : string) (n : nat) :
  forall attempt,
    Forall (pays_human_amount cfg)
      (trace (confirmation_loop w signature n attempt)).
Proof.
  induction n as [|n IH]; intros attempt; [constructor|].
  rewrite confirmation_loop_step. unfold goes_on.
  destruct (getSignatureStatus w signature attempt) as [status|message];
    [destruct (confirmed_or_finalized status);
       [destruct (status_err status)|]
    | destruct (Js.includes "failed on-chain" message)];
    cbn [trace snd];
    repeat (constructor; [apply no_pool_request; reflexivity|]);
    solve [constructor | apply IH].
Qed.

Lemma wait_for_funding_calls (signature : string) :
  Forall (pays_human_amount cfg) (trace (wait_for_funding w signature)).
Proof.
  rewrite wait_for_funding_unfold.
  destruct (outcome (confirmation_loop w signature 30 0)) as [[|]|message];
    apply confirmation_loop_calls.
Qed.

Lemma balance_loop_calls (burnerATA : PublicKey) (n : nat) :
  forall attempt usdcBalance,
    Forall (pays_human_amount cfg)
      (trace (balance_loop cfg w burnerATA n attempt usdcBalance)).
Proof.
  induction n as [|n IH]; intros attempt usdcBalance; [constructor|].
  rewrite balance_loop_step.
  destruct (getTokenAccountBalance w burnerATA attempt) as [amount|message];
    [destruct (amount >=? PAYMENT_AMOUNT cfg)|];
    cbn [trace snd];
    repeat (constructor; [apply no_pool_request; reflexivity|]);
    solve [constructor | apply IH].
Qed.

Lemma verify_balance_calls (burnerATA : PublicKey) :
  Forall (pays_human_amount cfg) (trace (verify_balance cfg w burnerATA)).
Proof.
  rewrite verify_balance_unfold.
  destruct (outcome (balance_loop cfg w burnerATA 10 0 0));
    apply balance_loop_calls.
Qed.

(** The requests of the relay, in order, as far as it gets. *)
Lemma privacy_relay_calls (session : Session) :
  exists n,
    trace (privacy_relay cfg w session) =
    firstn n
      [new_PrivacyCash_call (RPC_URL cfg) (burnerPrivateKeyBase58 session);
       depositSPL_call (PAYMENT_AMOUNT_human cfg) USDC_MINT;
       setTimeout_wait 3000;
       withdrawSPL_call USDC_MINT (PAYMENT_AMOUNT_human cfg)
         (PAYMENT_WALLET cfg)].
Proof.
  unfold privacy_relay.
  destruct (new_PrivacyCash w (RPC_URL cfg) (burnerPrivateKeyBase58 session));
    [|exists 1%nat; reflexivity].
  destruct (depositSPL w (PAYMENT_AMOUNT_human cfg) USDC_MINT);
    [|exists 2%nat; reflexivity].
  exists 4%nat.
  destruct (withdrawSPL w USDC_MINT (PAYMENT_AMOUNT_human cfg)
              (PAYMENT_WALLET cfg)); reflexivity.
Qed.

Lemma privacy_relay_pays (session : Session) :
  Forall (pays_human_amount cfg) (trace (privacy_relay cfg w session)).
Proof.
  unfold privacy_relay.
  destruct (new_PrivacyCash w (RPC_URL cfg) (burnerPrivateKeyBase58 session));
    [destruct (depositSPL w (PAYMENT_AMOUNT_human cfg) USDC_MINT);
       [destruct (withdrawSPL w USDC_MINT (PAYMENT_AMOUNT_human cfg)
                    (PAYMENT_WALLET cfg))|]|];
    cbn; repeat constructor; intros amount Ha; cbn in Ha;
    try discriminate; injection Ha as <-; reflexivity.
Qed.

Lemma issue_activation_calls :
  Forall (pays_human_amount cfg) (trace (issue_activation cfg w)).
Proof.
  unfold issue_activation. rewrite trace_bind. cbn [emit outcome trace fst snd].
  apply Forall_app. split.
  - repeat constructor. apply no_pool_request. reflexivity.
  - destruct (fetch_device w _ _ _) as [deviceResponse|message];
      [|constructor].
    cbn. destruct (ok deviceResponse); cbn.
    + destruct (json deviceResponse) as [[d|]|]; cbn; try constructor.
      destruct (data_token d) as [[|c tok]|]; constructor.
    + destruct (text deviceResponse); constructor.
Qed.

Lemma pipeline_calls (session : Session) (fundingTxSignature : option string) :
  Forall (pays_human_amount cfg)
    (trace (pipeline cfg w session fundingTxSignature)).
Proof.
  unfold pipeline. apply Forall_trace_bind.
  - destruct fundingTxSignature as [[|c signature]|];
      [constructor | apply wait_for_funding_calls | constructor].
  - intros _. apply Forall_trace_bind; [apply verify_balance_calls|].
    intros _. apply Forall_trace_bind; [apply privacy_relay_pays|].
    intros withdrawal. apply Forall_trace_bind; [apply issue_activation_calls|].
    intros activation. constructor.
Qed.

End Relay.

Lemma execute_calls (cfg : Config) (w : World)
    (sessionId fundingTxSignature : option string)
    (sessions : Js.Map Session) :
  Forall (pays_human_amount cfg)
    (snd (execute_privacy_transaction cfg w sessionId fundingTxSignature
            sessions)).
Proof.
  unfold execute_privacy_transaction.
  destruct sessionId as [[|c sessionId]|]; try constructor.
  destruct (Js.Map_get sessions (String c sessionId)) as [session|];
    [|constructor].
  pose proof (pipeline_calls cfg w session fundingTxSignature) as H.
  destruct (pipeline cfg w session fundingTxSignature)
    as [[[[[deviceId deviceToken] deepLink] withdrawal_tx]|message] calls];
    exact H.
Qed.

(** C2, as the code has it.  In every run of the handler each amount handed
    to the pool, for the deposit as for the withdrawal, is the configured
    payment amount divided by 1000000 (the price in whole tokens); so the
    deposit and the withdrawal of a run carry the same amount, and that
    amount is the minor-unit amount itself only when the price is 0. *)
Theorem pool_amounts_are_price_in_whole_tokens (cfg : Config) (w : World)
    (sessionId fundingTxSignature : option string)
    (sessions : Js.Map Session) :
  let calls := snd (execute_privacy_transaction cfg w sessionId
                      fundingTxSignature sessions) in
  (forall e amount,
     In e calls -> pool_amount e = Some amount ->
     amount = PAYMENT_AMOUNT_human cfg /\
     (amount == inject_Z (PAYMENT_AMOUNT cfg) / inject_Z 1000000)%Q /\
     ((amount == inject_Z (PAYMENT_AMOUNT cfg))%Q <->
      PAYMENT_AMOUNT cfg = 0)) /\
  (forall deposit withdrawal mint mint' recipient,
     In (depositSPL_call deposit mint) calls ->
     In (withdrawSPL_call mint' withdrawal recipient) calls ->
     deposit = withdrawal).
Proof.
  intros calls.
  pose proof (execute_calls cfg w sessionId fundingTxSignature sessions) as H.
  fold calls in H. rewrite Forall_forall in H.
  split.
  - intros e amount He Ha. rewrite (H e He amount Ha).
    split; [reflexivity|]. split.
    + unfold PAYMENT_AMOUNT_human. apply Qmake_Qdiv.
    + unfold PAYMENT_AMOUNT_human, Qeq. cbn. lia.
  - intros deposit withdrawal mint mint' recipient Hd Hw.
    rewrite (H _ Hd deposit eq_refl), (H _ Hw withdrawal eq_refl).
    reflexivity.
Qed.

(** The funded run on [Sample.store]: the deposit request is among the
    calls and carries 1000000/1000000, the price over 1000000. *)
Lemma pool_amounts_are_price_in_whole_tokens_witness :
  In (depositSPL_call (1000000 # 1000000) USDC_MINT)
    (snd (execute_privacy_transaction Sample.cfg (Sample.happy 2000)
            (Some Sample.sessionId) None Sample.store)) /\
  (1000000 # 1000000 = PAYMENT_AMOUNT_human Sample.cfg /\
   (1000000 # 1000000
    == inject_Z (PAYMENT_AMOUNT Sample.cfg) / inject_Z 1000000)%Q /\
   ((1000000 # 1000000 == inject_Z (PAYMENT_AMOUNT Sample.cfg))%Q <->
    PAYMENT_AMOUNT Sample.cfg = 0)).
Proof.
  assert (Hin : In (depositSPL_call (1000000 # 1000000) USDC_MINT)
                  (snd (execute_privacy_transaction Sample.cfg
                          (Sample.happy 2000) (Some Sample.sessionId) None
                          Sample.store))).
  { cbn. right. right. left. reflexivity. }
  split; [exact Hin|].
  exact (proj1 (pool_amounts_are_price_in_whole_tokens Sample.cfg
                  (Sample.happy 2000) (Some Sample.sessionId) None
                  Sample.store)
           (depositSPL_call (1000000 # 1000000) USDC_MINT)
           (1000000 # 1000000)%Q Hin eq_refl).
Defined.

(** C2 as stated fails: with the price configured as 1000000 minor units the
    handler hands the pool 1000000/1000000, that is 1, for the deposit and
    for the withdrawal. *)
Lemma pool_amount_is_not_the_minor_unit_amount :
  PAYMENT_AMOUNT Sample.cfg = 1000000 /\
  snd (execute_privacy_transaction Sample.cfg (Sample.happy 2000)
         (Some Sample.sessionId) None Sample.store)
  = [getTokenAccountBalance_call
       "ata-of-Burner11111111111111111111111111111111111111";
     new_PrivacyCash_call "https://api.mainnet-beta.solana.com" "BwgJ";
     depositSPL_call (1000000 # 1000000) USDC_MINT;
     setTimeout_wait 3000;
     withdrawSPL_call USDC_MINT (1000000 # 1000000)
       (Some "9xQeWvG816bUx9EPjHmaT23yvVM2ZWbrrpZb9PusVFin");
     fetch_device_call "https://api.dvpnsdk.com/device" "WINDOWS"
       (Some "app-token")] /\
  ~ (1000000 # 1000000 == inject_Z (PAYMENT_AMOUNT Sample.cfg))%Q /\
  (1000000 # 1000000 == 1)%Q.
Proof.
  split; [reflexivity|]. split; [reflexivity|]. split.
  - unfold Qeq. cbn. lia.
  - reflexivity.
Qed.

(** ** The Session Store *)

(** A session found after [/api/execute-privacy-transaction] was there
    before, unchanged. *)
Lemma execute_get (cfg : Config) (w : World)
    (sessionId fundingTxSignature : option string)
    (sessions : Js.Map Session) (id : string) (session : Session) :
  Js.Map_get
    (snd (fst (execute_privacy_transaction cfg w sessionId fundingTxSignature
                 sessions))) id = Some session ->
  Js.Map_get sessions id = Some session.
Proof.
  unfold execute_privacy_transaction.
  destruct sessionId as [[|c sessionId]|]; cbn [fst snd]; try tauto.
  destruct (Js.Map_get sessions (String c sessionId)) as [found|];
    cbn [fst snd]; [|tauto].
  destruct (pipeline cfg w found fundingTxSignature)
    as [[[[[deviceId deviceToken] deepLink] withdrawal_tx]|message] calls];
    cbn [fst snd]; [|tauto].
  rewrite Map_get_delete.
  destruct (String.eqb (String c sessionId) id); [discriminate | tauto].
Qed.

Section SessionStore.

Variable cfg : Config.
Variable TOKEN_PROGRAM_ID : PublicKey.
Variable ASSOCIATED_TOKEN_PROGRAM_ID : PublicKey.
Variable getAssociatedTokenAddress :
  PublicKey -> PublicKey -> bool -> PublicKey -> PublicKey -> Outcome PublicKey.
Variable bs58_encode : list Z -> string.

Let derive := derive_ata TOKEN_PROGRAM_ID ASSOCIATED_TOKEN_PROGRAM_ID
                getAssociatedTokenAddress.
Let create := create_session cfg TOKEN_PROGRAM_ID ASSOCIATED_TOKEN_PROGRAM_ID
                getAssociatedTokenAddress bs58_encode.

(** The clean-up only removes entries. *)
Lemma clean_up_get (w : World) (entries : list (string * Session)) :
  forall k sessions id session,
    Js.Map_get (clean_up w k entries sessions) id = Some session ->
    Js.Map_get sessions id = Some session.
Proof.
  induction entries as [|[id' session'] entries IH];
    intros k sessions id session H; [exact H|].
  cbn [clean_up] in H. apply IH in H.
  destruct (Date_now w k >? expiresAt session'); [|exact H].
  rewrite Map_get_delete in H.
  destruct (String.eqb id' id); [discriminate | exact H].
Qed.

(** A session found after [/api/create-session] was there before, or is the
    one just created. *)
Lemma create_session_get (w : World) (sessions : Js.Map Session)
    (id : string) (session : Session) :
  Js.Map_get (snd (create w sessions)) id = Some session ->
  Js.Map_get sessions id = Some session \/
  (id = new_sessionId w /\
   derive (Keypair_generate w) = Resolve (burnerATA session) /\
   session = new_session bs58_encode w (Keypair_generate w)
               (burnerATA session)).
Proof.
  unfold create, create_session, derive, derive_ata.
  destruct (getAssociatedTokenAddress USDC_MINT
              (publicKey (Keypair_generate w)) false TOKEN_PROGRAM_ID
              ASSOCIATED_TOKEN_PROGRAM_ID) as [ata|message] eqn:E;
    cbn [snd]; [|intros H; left; exact H].
  intros H. apply clean_up_get in H. rewrite Map_get_set in H.
  destruct (String.eqb (new_sessionId w) id) eqn:Eid; [|left; exact H].
  apply String.eqb_eq in Eid. injection H as <-. right.
  repeat split. symmetry. exact Eid.
Qed.

(** Every stored address is the derivation of the stored credential. *)
Lemma reachable_derived (sessions : Js.Map Session) :
  reachable cfg TOKEN_PROGRAM_ID ASSOCIATED_TOKEN_PROGRAM_ID
    getAssociatedTokenAddress bs58_encode sessions ->
  forall id session,
    Js.Map_get sessions id = Some session ->
    derive (burnerKeypair session) = Resolve (burnerATA session).
Proof.
  induction 1 as [|sessions sessions' _ IH Hstep]; intros id session Hget.
  - discriminate.
  - destruct Hstep as [w sessions|w sessionId fundingTxSignature sessions].
    + apply create_session_get in Hget.
      destruct Hget as [Hold|(_ & Hnew & Hrec)]; [exact (IH _ _ Hold)|].
      rewrite Hrec at 1. exact Hnew.
    + apply execute_get in Hget. exact (IH _ _ Hget).
Qed.

End SessionStore.

(** C8. In every store the process can reach, the deposit address of every
    session is the associated-token-address derivation applied to that
    session's own burner credential with the fixed mint and program
    identifiers; so two stored sessions with the same credential, in
    whatever stores and at whatever times, have the same address.  No
    request rewrites a stored session: one found after
    [/api/execute-privacy-transaction] was there before, unchanged, and one
    found after [/api/create-session] was there before, unchanged, or is the
    session that request created under the id it generated. *)
Theorem deposit_address_is_derived_from_credential (cfg : Config)
    (TOKEN_PROGRAM_ID ASSOCIATED_TOKEN_PROGRAM_ID : PublicKey)
    (getAssociatedTokenAddress :
       PublicKey -> PublicKey -> bool -> PublicKey -> PublicKey
       -> Outcome PublicKey)
    (bs58_encode : list Z -> string) :
  let derive := derive_ata TOKEN_PROGRAM_ID ASSOCIATED_TOKEN_PROGRAM_ID
                  getAssociatedTokenAddress in
  let reachable := reachable cfg TOKEN_PROGRAM_ID ASSOCIATED_TOKEN_PROGRAM_ID
                     getAssociatedTokenAddress bs58_encode in
  let create := create_session cfg TOKEN_PROGRAM_ID
                  ASSOCIATED_TOKEN_PROGRAM_ID getAssociatedTokenAddress
                  bs58_encode in
  (forall sessions id session,
     reachable sessions ->
     Js.Map_get sessions id = Some session ->
     derive (burnerKeypair session) = Resolve (burnerATA session)) /\
  (forall sessions1 id1 session1 sessions2 id2 session2,
     reachable sessions1 -> Js.Map_get sessions1 id1 = Some session1 ->
     reachable sessions2 -> Js.Map_get sessions2 id2 = Some session2 ->
     burnerKeypair session1 = burnerKeypair session2 ->
     burnerATA session1 = burnerATA session2) /\
  (forall w sessionId fundingTxSignature sessions id session,
     Js.Map_get
       (snd (fst (execute_privacy_transaction cfg w sessionId
                    fundingTxSignature sessions))) id = Some session ->
     Js.Map_get sessions id = Some session) /\
  (forall w sessions id session,
     Js.Map_get (snd (create w sessions)) id = Some session ->
     Js.Map_get sessions id = Some session \/
     (id = new_sessionId w /\
      derive (Keypair_generate w) = Resolve (burnerATA session) /\
      session = new_session bs58_encode w (Keypair_generate w)
                  (burnerATA session))).
Proof.
  intros derive reachable create.
  assert (Hinv : forall sessions id session,
            reachable sessions ->
            Js.Map_get sessions id = Some session ->
            derive (burnerKeypair session) = Resolve (burnerATA session)).
  { intros sessions id session Hr Hget.
    exact (reachable_derived cfg _ _ _ _ sessions Hr id session Hget). }
  split; [exact Hinv|]. split; [|split].
  - intros sessions1 id1 session1 sessions2 id2 session2 Hr1 H1 Hr2 H2 Hkey.
    pose proof (Hinv _ _ _ Hr1 H1) as D1.
    pose proof (Hinv _ _ _ Hr2 H2) as D2.
    rewrite Hkey, D2 in D1. injection D1 as D1. symmetry. exact D1.
  - intros w sessionId fundingTxSignature sessions id session.
    exact (execute_get cfg w sessionId fundingTxSignature sessions id session).
  - intros w sessions id session.
    exact (create_session_get cfg _ _ _ _ w sessions id session).
Qed.

(** [Sample.store] is reached by one [/api/create-session]; the address of
    its session is the derivation of its credential. *)
Lemma deposit_address_is_derived_from_credential_witness :
  exists session,
    Js.Map_get Sample.store Sample.sessionId = Some session /\
    Sample.getAssociatedTokenAddress USDC_MINT
      (publicKey (burnerKeypair session)) false Sample.TOKEN_PROGRAM_ID
      Sample.ASSOCIATED_TOKEN_PROGRAM_ID
    = Resolve (burnerATA session).
Proof.
  destruct (Js.Map_get Sample.store Sample.sessionId) as [session|] eqn:Hget;
    [|discriminate Hget].
  exists session. split; [reflexivity|].
  refine (proj1 (deposit_address_is_derived_from_credential Sample.cfg
                   Sample.TOKEN_PROGRAM_ID Sample.ASSOCIATED_TOKEN_PROGRAM_ID
                   Sample.getAssociatedTokenAddress Sample.bs58_encode)
            Sample.store Sample.sessionId session _ Hget).
  apply (reachable_step _ _ _ _ _ [] Sample.store (reachable_start _ _ _ _ _)).
  exact (step_create_session Sample.cfg Sample.TOKEN_PROGRAM_ID
           Sample.ASSOCIATED_TOKEN_PROGRAM_ID Sample.getAssociatedTokenAddress
           Sample.bs58_encode (Sample.happy 1000) []).
Defined.

(** [/api/execute-privacy-transaction] answers "Invalid or expired session"
    only when the id is not in the map: it never looks at [expiresAt]. *)
Lemma found_session_is_not_rejected (cfg : Config) (w : World) (c : ascii)
    (sessionId : string) (fundingTxSignature : option string)
    (sessions : Js.Map Session) (session : Session) :
  Js.Map_get sessions (String c sessionId) = Some session ->
  fst (fst (execute_privacy_transaction cfg w (Some (String c sessionId))
              fundingTxSignature sessions))
  <> json_error 400 "Invalid or expired session".
Proof.
  intros Hget. unfold execute_privacy_transaction. rewrite Hget.
  destruct (pipeline cfg w session fundingTxSignature)
    as [[[[[deviceId deviceToken] deepLink] withdrawal_tx]|message] calls];
    cbn; discriminate.
Qed.

(** C1, on the code.  The session of [Sample.store] expires at 901000.  No
    later [/api/create-session] has evicted it; with the clock at 2000000
    the look-up of [/api/execute-privacy-transaction] still finds it, and
    the run goes through to the activation. *)
Theorem expired_session_is_still_served :
  (exists session,
     Js.Map_get Sample.store Sample.sessionId = Some session /\
     expiresAt session = 901000 /\
     Date_now (Sample.happy 2000000) 0 >= expiresAt session) /\
  execute_privacy_transaction Sample.cfg (Sample.happy 2000000)
    (Some Sample.sessionId) None Sample.store
  = (json_execute (Some "dev-1") "tok-1" "exidvpn://activate?token=tok-1"
       "withdrawal-signature",
     [],
     [getTokenAccountBalance_call
        "ata-of-Burner11111111111111111111111111111111111111";
      new_PrivacyCash_call "https://api.mainnet-beta.solana.com" "BwgJ";
      depositSPL_call (1000000 # 1000000) USDC_MINT;
      setTimeout_wait 3000;
      withdrawSPL_call USDC_MINT (1000000 # 1000000)
        (Some "9xQeWvG816bUx9EPjHmaT23yvVM2ZWbrrpZb9PusVFin");
      fetch_device_call "https://api.dvpnsdk.com/device" "WINDOWS"
        (Some "app-token")]).
Proof.
  split; [|reflexivity].
  eexists. split; [reflexivity|]. split; [reflexivity|]. cbn. lia.
Qed.

(** The record of lines 99-107 takes [createdAt] and [expiresAt] from two
    readings of the clock. *)
Lemma new_session_expiry (bs58_encode : list Z -> string) (w : World)
    (burnerKeypair : Keypair) (burnerATA : PublicKey) :
  let session := new_session bs58_encode w burnerKeypair burnerATA in
  createdAt session = Date_now w 1 /\
  expiresAt session = Date_now w 2 + 900000 /\
  (expiresAt session = createdAt session + 900000 <->
   Date_now w 2 = Date_now w 1).
Proof. cbn. lia. Qed.

(** C6, on the code.  In [Sample.ticking] the clock reads 1000 for
    [createdAt] and 1001 for [expiresAt]: the session created has
    [expiresAt = 901001], which is not [createdAt + 900000]. *)
Theorem expiry_is_offset_from_a_second_clock_reading :
  Date_now Sample.ticking 1 = 1000 /\
  Date_now Sample.ticking 2 = 1001 /\
  exists session,
    Js.Map_get (snd (Sample.create Sample.ticking [])) Sample.sessionId
    = Some session /\
    createdAt session = 1000 /\
    expiresAt session = 901001 /\
    expiresAt session <> createdAt session + 900000.
Proof.
  split; [reflexivity|]. split; [reflexivity|].
  eexists. split; [reflexivity|]. cbn. lia.
Qed.

(** ** The Transaction Relay *)

Lemma to_base64_not_empty (bytes : list Z) :
  bytes <> [] ->
  not_given (tx_string (Js.units (Buffer.to_base64 bytes))) = false.
Proof.
  intros H. destruct bytes as [|a [|b [|c rest]]]; [elim H|..]; reflexivity.
Qed.

Lemma send_transaction_given (w : World)
    (signedTransaction : SignedTransaction) :
  not_given signedTransaction = false ->
  send_transaction w signedTransaction =
  (match sendRawTransaction w (normalize signedTransaction) with
   | Resolve signature => json_send signature
   | Throw message => json_error 500 message
   end,
   [sendRawTransaction_call (normalize signedTransaction) false 3]).
Proof.
  intros H. unfold send_transaction. rewrite H. cbn.
  destruct (sendRawTransaction w (normalize signedTransaction)); reflexivity.
Qed.

(** C7, as the code has it.  The normalization of lines 283-290 maps the
    array of a byte sequence, its base64 text and an object whose values form
    it to that same sequence of bytes; and when the sequence is not empty the
    handler submits these bytes, in one request to the ledger, and answers
    alike in the three cases. *)
Theorem equivalent_encodings_submit_the_same_bytes (w : World)
    (bytes : list Z) (entries : list (string * Z)) :
  Forall Buffer.is_byte bytes ->
  map snd entries = bytes ->
  (normalize (tx_array bytes) = bytes /\
   normalize (tx_string (Js.units (Buffer.to_base64 bytes))) = bytes /\
   normalize (tx_object entries) = bytes) /\
  (bytes <> [] ->
   snd (send_transaction w (tx_array bytes))
   = [sendRawTransaction_call bytes false 3] /\
   send_transaction w (tx_string (Js.units (Buffer.to_base64 bytes)))
   = send_transaction w (tx_array bytes) /\
   send_transaction w (tx_object entries)
   = send_transaction w (tx_array bytes)).
Proof.
  intros Hbytes Hentries.
  assert (Hn : normalize (tx_array bytes) = bytes /\
               normalize (tx_string (Js.units (Buffer.to_base64 bytes)))
               = bytes /\
               normalize (tx_object entries) = bytes).
  { cbn [normalize]. rewrite Hentries.
    rewrite (BufferFacts.from_array_bytes bytes Hbytes).
    rewrite (BufferFacts.from_base64_to_base64 bytes Hbytes).
    repeat split. }
  split; [exact Hn|]. intros Hne. destruct Hn as (Ha & Hs & Ho).
  rewrite (send_transaction_given w (tx_array bytes) eq_refl).
  rewrite (send_transaction_given w (tx_object entries) eq_refl).
  rewrite (send_transaction_given w _ (to_base64_not_empty bytes Hne)).
  rewrite Ha, Hs, Ho. repeat split.
Qed.

(** The bytes 1, 2, 3 as an array, as the text "AQID" and as an object. *)
Lemma equivalent_encodings_submit_the_same_bytes_witness :
  Buffer.to_base64 [1; 2; 3] = "AQID" /\
  snd (send_transaction (Sample.happy 0) (tx_array [1; 2; 3]))
  = [sendRawTransaction_call [1; 2; 3] false 3] /\
  send_transaction (Sample.happy 0) (tx_string (Js.units "AQID"))
  = send_transaction (Sample.happy 0) (tx_array [1; 2; 3]) /\
  send_transaction (Sample.happy 0) (tx_object [("0", 1); ("1", 2); ("2", 3)])
  = send_transaction (Sample.happy 0) (tx_array [1; 2; 3]).
Proof.
  split; [reflexivity|].
  refine (proj2 (equivalent_encodings_submit_the_same_bytes (Sample.happy 0)
                   [1; 2; 3] [("0", 1); ("1", 2); ("2", 3)] _ eq_refl) _).
  - repeat constructor; unfold Buffer.is_byte; lia.
  - discriminate.
Defined.

(** C7 as stated fails at the empty byte sequence: its base64 text is the
    empty string, which line 277 refuses before anything is normalized,
    while its array and its object are relayed as an empty buffer. *)
Lemma empty_transaction_is_not_relayed_alike :
  Buffer.to_base64 [] = "" /\
  send_transaction (Sample.happy 0)
    (tx_string (Js.units (Buffer.to_base64 [])))
  = (json_error 400 "signedTransaction required", []) /\
  send_transaction (Sample.happy 0) (tx_array [])
  = (json_send "relayed-signature", [sendRawTransaction_call [] false 3]) /\
  send_transaction (Sample.happy 0) (tx_object [])
  = (json_send "relayed-signature", [sendRawTransaction_call [] false 3]).
Proof. repeat split. Qed.

(** ** More on the Confirmation Waiter *)

(** X1. When none of the thirty status attempts confirms or fails (the
    transaction is not visible, is only processed, or the query throws a
    swallowed exception), the waiter makes exactly thirty queries, each
    followed by a wait of one second, and then fails with the time-out
    message. *)
Theorem waiter_times_out_after_thirty_attempts (w : World)
    (signature : string) :
  (forall j, (j < 30)%nat -> transient w signature j = true) ->
  wait_for_funding w signature
  = (Throw "Funding transaction did not confirm within 30 seconds",
     confirmation_retries signature 30) /\
  asked is_status_query (trace (wait_for_funding w signature)) = 30%nat /\
  waited (trace (wait_for_funding w signature)) = 30000.
Proof.
  intros H.
  assert (E : wait_for_funding w signature
              = (Throw "Funding transaction did not confirm within 30 seconds",
                 confirmation_retries signature 30)).
  { rewrite wait_for_funding_unfold.
    rewrite (confirmation_loop_exhausted w signature 30 H). reflexivity. }
  rewrite E. split; [reflexivity|]. split; reflexivity.
Qed.

(** A transaction the ledger never shows. *)
Lemma waiter_times_out_after_thirty_attempts_witness :
  outcome (wait_for_funding Scenario.never_visible "sig")
  = Throw "Funding transaction did not confirm within 30 seconds" /\
  asked is_status_query (trace (wait_for_funding Scenario.never_visible "sig"))
  = 30%nat.
Proof.
  assert (H : forall j, (j < 30)%nat ->
                        transient Scenario.never_visible "sig" j = true)
    by (intros j _; reflexivity).
  destruct (waiter_times_out_after_thirty_attempts Scenario.never_visible
              "sig" H) as (E & Hasked & _).
  split; [rewrite E; reflexivity | exact Hasked].
Defined.

(** X2. The waiter succeeds at the first attempt it reaches whose status is
    confirmed or finalized without error: the attempts before it were each
    followed by a one-second wait, and that query is the last request, with
    no wait after it. *)
Theorem waiter_confirms_at_first_confirmed_status (w : World)
    (signature : string) (k : nat) (value : SignatureStatus) :
  (k < 30)%nat ->
  (forall j, (j < k)%nat -> transient w signature j = true) ->
  getSignatureStatus w signature k = Resolve (Some value) ->
  confirmed_or_finalized (Some value) = true ->
  err value = None ->
  wait_for_funding w signature
  = (Resolve tt,
     confirmation_retries signature k ++ [getSignatureStatus_call signature]).
Proof.
  intros Hk Hb Hs Hc He.
  rewrite (wait_for_funding_from w signature k Hk Hb).
  replace (30 - k)%nat with (S (29 - k)) by lia.
  rewrite confirmation_loop_step, Hs, Hc. cbn [status_err].
  rewrite He. reflexivity.
Qed.

(** Not visible, then a swallowed network error, then finalized. *)
Lemma waiter_confirms_at_first_confirmed_status_witness :
  wait_for_funding Scenario.confirmed_late "sig"
  = (Resolve tt,
     [getSignatureStatus_call "sig"; setTimeout_wait 1000;
      getSignatureStatus_call "sig"; setTimeout_wait 1000;
      getSignatureStatus_call "sig"]).
Proof.
  refine (waiter_confirms_at_first_confirmed_status Scenario.confirmed_late
            "sig" 2 {| confirmationStatus := Some finalized; err := None |}
            _ _ eq_refl eq_refl eq_refl).
  - lia.
  - intros j Hj. destruct j as [|[|j]]; [reflexivity | reflexivity | lia].
Defined.

(** ** The requests of a run, stage by stage *)

Section Stages.

Variable cfg : Config.
Variable w : World.

(** The waiter asks for the status up to thirty times: either all thirty
    attempts went on, or it stopped at the query of an earlier attempt. *)
Lemma wait_for_funding_trace (signature : string) :
  exists k,
    (k = 30%nat /\
     trace (wait_for_funding w signature) = confirmation_retries signature k)
    \/
    ((k < 30)%nat /\
     trace (wait_for_funding w signature)
     = confirmation_retries signature k
         ++ [getSignatureStatus_call signature]).
Proof.
  destruct (first_not_transient w signature 30) as [Hall|(k & Hk & Hf & Hb)].
  - exists 30%nat. left. split; [reflexivity|].
    rewrite wait_for_funding_unfold.
    rewrite (confirmation_loop_exhausted w signature 30 Hall). reflexivity.
  - exists k. right. split; [exact Hk|].
    rewrite (wait_for_funding_from w signature k Hk Hb).
    replace (30 - k)%nat with (S (29 - k)) by lia.
    rewrite confirmation_loop_step. unfold transient in Hf.
    destruct (getSignatureStatus w signature k) as [status|message];
      apply negb_false_iff in Hf; rewrite Hf.
    + destruct (status_err status); reflexivity.
    + reflexivity.
Qed.

(** So does the verifier, up to ten times. *)
Lemma verify_balance_trace (burnerATA : PublicKey) :
  exists k,
    (k = 10%nat /\
     trace (verify_balance cfg w burnerATA) = balance_retries burnerATA k)
    \/
    ((k < 10)%nat /\
     trace (verify_balance cfg w burnerATA)
     = balance_retries burnerATA k ++ [getTokenAccountBalance_call burnerATA]).
Proof.
  assert (Ht : trace (verify_balance cfg w burnerATA)
               = trace (balance_loop cfg w burnerATA 10 0 0)).
  { rewrite verify_balance_unfold.
    destruct (outcome (balance_loop cfg w burnerATA 10 0 0)); reflexivity. }
  rewrite Ht.
  destruct (first_not_short cfg w burnerATA 10) as [Hall|(k & Hk & Hf & Hb)].
  - exists 10%nat. left. split; [reflexivity|].
    rewrite (balance_loop_exhausted cfg w burnerATA 10 Hall). reflexivity.
  - exists k. right. split; [exact Hk|]. unfold short in Hf.
    destruct (getTokenAccountBalance w burnerATA k) as [amount|] eqn:Hq;
      [|discriminate].
    apply Z.ltb_ge in Hf.
    rewrite (balance_loop_first_sufficient cfg w burnerATA 10 k amount
               Hk Hb Hq Hf).
    reflexivity.
Qed.

(** The relay asks for the client, then the deposit, then waits and asks for
    the withdrawal, as far as each answer lets it go on. *)
Lemma privacy_relay_trace (session : Session) :
  trace (privacy_relay cfg w session) =
  new_PrivacyCash_call (RPC_URL cfg) (burnerPrivateKeyBase58 session)
  :: if resolved (new_PrivacyCash w (RPC_URL cfg)
                    (burnerPrivateKeyBase58 session))
     then depositSPL_call (PAYMENT_AMOUNT_human cfg) USDC_MINT
          :: if deposited cfg w session
             then [setTimeout_wait 3000;
                   withdrawSPL_call USDC_MINT (PAYMENT_AMOUNT_human cfg)
                     (PAYMENT_WALLET cfg)]
             else []
     else [].
Proof.
  unfold privacy_relay, deposited.
  destruct (new_PrivacyCash w (RPC_URL cfg) (burnerPrivateKeyBase58 session));
    [|reflexivity].
  destruct (depositSPL w (PAYMENT_AMOUNT_human cfg) USDC_MINT);
    [|reflexivity].
  destruct (withdrawSPL w USDC_MINT (PAYMENT_AMOUNT_human cfg)
              (PAYMENT_WALLET cfg)); reflexivity.
Qed.

(** The issuer makes one request, whatever comes back. *)
Lemma issue_activation_trace :
  trace (issue_activation cfg w) =
  [fetch_device_call (DVPN_API_URL cfg ++ "/device")%string "WINDOWS"
     (DVPN_APP_TOKEN cfg)].
Proof.
  unfold issue_activation.
  destruct (fetch_device w _ _ _) as [deviceResponse|message];
    [|reflexivity].
  cbn. destruct (ok deviceResponse); cbn.
  - destruct (json deviceResponse) as [[d|]|]; cbn; try reflexivity.
    destruct (data_token d) as [[|c tok]|]; reflexivity.
  - destruct (text deviceResponse); reflexivity.
Qed.

Lemma funding_stage_resolved (fundingTxSignature : option string) :
  resolved (outcome (funding_stage w fundingTxSignature))
  = funding_confirmed w fundingTxSignature.
Proof. destruct fundingTxSignature as [[|c signature]|]; reflexivity. Qed.

(** The requests of the pipeline: those of each stage in turn, up to and
    including the first stage that fails. *)
Lemma pipeline_trace (session : Session) (fundingTxSignature : option string) :
  trace (pipeline cfg w session fundingTxSignature) =
  trace (funding_stage w fundingTxSignature)
  ++ if funding_confirmed w fundingTxSignature then
       trace (verify_balance cfg w (burnerATA session))
       ++ if balance_verified cfg w session then
            trace (privacy_relay cfg w session)
            ++ if deposited cfg w session && withdrawn cfg w
               then trace (issue_activation cfg w)
               else []
          else []
     else [].
Proof.
  rewrite <- funding_stage_resolved, <- privacy_relay_resolved.
  unfold pipeline, balance_verified.
  change (match fundingTxSignature with
          | Some (String _ _ as signature) => wait_for_funding w signature
          | _ => ret tt
          end) with (funding_stage w fundingTxSignature).
  rewrite trace_bind.
  destruct (outcome (funding_stage w fundingTxSignature));
    [|cbn [resolved]; rewrite app_nil_r; reflexivity].
  cbn [resolved]. f_equal. rewrite trace_bind.
  destruct (outcome (verify_balance cfg w (burnerATA session)));
    [|cbn [resolved]; rewrite app_nil_r; reflexivity].
  cbn [resolved]. f_equal. rewrite trace_bind.
  destruct (outcome (privacy_relay cfg w session));
    [|cbn [resolved]; rewrite app_nil_r; reflexivity].
  cbn [resolved]. f_equal. rewrite trace_bind.
  destruct (outcome (issue_activation cfg w)); cbn; rewrite ?app_nil_r;
    reflexivity.
Qed.

(** The calls of the handler are those of the pipeline on the session it
    found, and none when it found no session. *)
Lemma execute_trace (sessionId fundingTxSignature : option string)
    (sessions : Js.Map Session) :
  snd (execute_privacy_transaction cfg w sessionId fundingTxSignature sessions)
  = match lookup sessions sessionId with
    | Some session => trace (pipeline cfg w session fundingTxSignature)
    | None => []
    end.
Proof.
  unfold execute_privacy_transaction, lookup.
  destruct sessionId as [[|c sessionId]|]; try reflexivity.
  destruct (Js.Map_get sessions (String c sessionId)) as [session|];
    [|reflexivity].
  destruct (pipeline cfg w session fundingTxSignature)
    as [[[[[deviceId deviceToken] deepLink] withdrawal_tx]|message] calls];
    reflexivity.
Qed.

Lemma Forall_retries (P : Event -> Prop) (query : Event) (ms : Z) (k : nat) :
  P query -> P (setTimeout_wait ms) ->
  Forall P (concat (repeat [query; setTimeout_wait ms] k)).
Proof.
  intros Hq Hs. induction k as [|k IH]; cbn; [constructor|].
  constructor; [exact Hq|]. constructor; [exact Hs | exact IH].
Qed.

Lemma Forall_funding_stage (P : Event -> Prop)
    (fundingTxSignature : option string) :
  (forall signature,
     fundingTxSignature = Some signature -> signature <> "" ->
     P (getSignatureStatus_call signature) /\ P (setTimeout_wait 1000)) ->
  Forall P (trace (funding_stage w fundingTxSignature)).
Proof.
  intros H. destruct fundingTxSignature as [[|c signature]|];
    try constructor.
  destruct (H (String c signature) eq_refl) as [Hq Hs]; [discriminate|].
  cbn [funding_stage].
  destruct (wait_for_funding_trace (String c signature))
    as [k [[_ Ht]|[_ Ht]]]; rewrite Ht.
  - apply Forall_retries; assumption.
  - apply Forall_app. split; [apply Forall_retries; assumption|].
    constructor; [exact Hq | constructor].
Qed.

Lemma Forall_verify_balance (P : Event -> Prop) (burnerATA : PublicKey) :
  P (getTokenAccountBalance_call burnerATA) -> P (setTimeout_wait 2000) ->
  Forall P (trace (verify_balance cfg w burnerATA)).
Proof.
  intros Hq Hs.
  destruct (verify_balance_trace burnerATA) as [k [[_ Ht]|[_ Ht]]];
    rewrite Ht.
  - apply Forall_retries; assumption.
  - apply Forall_app. split; [apply Forall_retries; assumption|].
    constructor; [exact Hq | constructor].
Qed.

(** A property of the requests of a run follows from the property of each
    stage's requests, a stage counting only when the ones before it
    succeeded. *)
Lemma Forall_pipeline (P : Event -> Prop) (session : Session)
    (fundingTxSignature : option string) :
  Forall P (trace (funding_stage w fundingTxSignature)) ->
  (funding_confirmed w fundingTxSignature = true ->
   Forall P (trace (verify_balance cfg w (burnerATA session)))) ->
  (funding_confirmed w fundingTxSignature = true ->
   balance_verified cfg w session = true ->
   Forall P (trace (privacy_relay cfg w session))) ->
  (funding_confirmed w fundingTxSignature = true ->
   balance_verified cfg w session = true ->
   deposited cfg w session && withdrawn cfg w = true ->
   Forall P (trace (issue_activation cfg w))) ->
  Forall P (trace (pipeline cfg w session fundingTxSignature)).
Proof.
  intros HF HV HR HA. rewrite pipeline_trace.
  apply Forall_app. split; [exact HF|].
  destruct (funding_confirmed w fundingTxSignature); [|constructor].
  apply Forall_app. split; [apply HV; reflexivity|].
  destruct (balance_verified cfg w session); [|constructor].
  apply Forall_app. split; [apply HR; reflexivity|].
  destruct (deposited cfg w session && withdrawn cfg w); [|constructor].
  apply HA; reflexivity.
Qed.

End Stages.

(** X3. In a run of [/api/execute-privacy-transaction] on a session it
    found, every request is made only after all the stages before it
    succeeded: the balance is queried only once the funding is confirmed (or
    no signature was supplied), the pool client is built only once the
    balance is verified, the deposit is asked only with the client built,
    the withdrawal only after the deposit resolved, and the provisioning API
    only after the withdrawal resolved. *)
Theorem requests_follow_succeeded_stages (cfg : Config) (w : World)
    (sessionId fundingTxSignature : option string)
    (sessions : Js.Map Session) (session : Session) :
  lookup sessions sessionId = Some session ->
  Forall (fun e => succeeded_before cfg w session fundingTxSignature e = true)
    (snd (execute_privacy_transaction cfg w sessionId fundingTxSignature
            sessions)).
Proof.
  intros Hfound. rewrite execute_trace, Hfound.
  apply Forall_pipeline.
  - apply Forall_funding_stage. intros; split; reflexivity.
  - intros HF. apply Forall_verify_balance; [exact HF | reflexivity].
  - intros HF HV. rewrite privacy_relay_trace. unfold deposited.
    constructor; [cbn; rewrite HF, HV; reflexivity|].
    destruct (resolved (new_PrivacyCash w (RPC_URL cfg)
                          (burnerPrivateKeyBase58 session))) eqn:HN;
      [|constructor].
    constructor; [cbn; rewrite HF, HV, HN; reflexivity|].
    destruct (resolved (depositSPL w (PAYMENT_AMOUNT_human cfg) USDC_MINT))
      eqn:HD; cbn [andb]; [|constructor].
    constructor; [reflexivity|].
    constructor; [|constructor].
    cbn. unfold deposited. rewrite HF, HV, HN, HD. reflexivity.
  - intros HF HV HR. rewrite issue_activation_trace.
    constructor; [|constructor].
    cbn. rewrite HF, HV. apply andb_true_iff in HR. destruct HR as [HD HW].
    rewrite HD, HW. reflexivity.
Qed.

(** The underfunded run on [Sample.store] asks for the balance ten times and
    never builds a pool client: had it, the verification would have
    succeeded. *)
Lemma requests_follow_succeeded_stages_witness :
  ~ In (new_PrivacyCash_call "https://api.mainnet-beta.solana.com" "BwgJ")
      (snd (execute_privacy_transaction Sample.cfg Sample.underfunded
              (Some Sample.sessionId) (Some "sig") Sample.store)).
Proof.
  destruct (lookup Sample.store (Some Sample.sessionId)) as [session|] eqn:Hf;
    [|discriminate Hf].
  pose proof (requests_follow_succeeded_stages Sample.cfg Sample.underfunded
                (Some Sample.sessionId) (Some "sig") Sample.store session Hf)
    as H.
  rewrite Forall_forall in H. intros Hin. specialize (H _ Hin).
  injection Hf as <-. discriminate H.
Defined.

(** X4. Every request of such a run goes where the configuration and the
    session say: status queries are for the signature supplied (and none is
    made without one), the balance is that of the session's own token
    account, the pool client is the session's burner, the mint is the USDC
    mint, the withdrawal goes to the configured payment wallet, provisioning
    is asked at the configured endpoint with the configured token, waits
    last 1, 2 or 3 seconds, and no raw transaction is ever submitted. *)
Theorem requests_are_addressed_by_configuration (cfg : Config) (w : World)
    (sessionId fundingTxSignature : option string)
    (sessions : Js.Map Session) (session : Session) :
  lookup sessions sessionId = Some session ->
  Forall (addressed cfg session fundingTxSignature)
    (snd (execute_privacy_transaction cfg w sessionId fundingTxSignature
            sessions)).
Proof.
  intros Hfound. rewrite execute_trace, Hfound.
  apply Forall_pipeline.
  - apply Forall_funding_stage. intros signature Hs Hne. cbn. tauto.
  - intros _. apply Forall_verify_balance; cbn; tauto.
  - intros _ _. rewrite privacy_relay_trace.
    constructor; [cbn; tauto|].
    destruct (resolved _); [|constructor].
    constructor; [reflexivity|].
    destruct (deposited cfg w session); [|constructor].
    repeat constructor; cbn; tauto.
  - intros _ _ _. rewrite issue_activation_trace.
    repeat constructor.
Qed.

(** The funded run on [Sample.store]: all its requests, the withdrawal to
    the configured wallet among them, are addressed as configured. *)
Lemma requests_are_addressed_by_configuration_witness :
  exists session,
    lookup Sample.store (Some Sample.sessionId) = Some session /\
    Forall (addressed Sample.cfg session None)
      (snd (execute_privacy_transaction Sample.cfg (Sample.happy 2000)
              (Some Sample.sessionId) None Sample.store)).
Proof.
  destruct (lookup Sample.store (Some Sample.sessionId)) as [session|] eqn:Hf;
    [|discriminate Hf].
  exists session. split; [reflexivity|].
  exact (requests_are_addressed_by_configuration Sample.cfg
           (Sample.happy 2000) (Some Sample.sessionId) None Sample.store
           session Hf).
Defined.

(** ** How long a run lasts *)

Lemma waited_app (a b : list Event) : waited (a ++ b) = waited a + waited b.
Proof.
  induction a as [|e a IH]; [reflexivity|].
  destruct e; cbn [app waited]; rewrite IH; lia.
Qed.

Lemma asked_app (kind : Event -> bool) (a b : list Event) :
  asked kind (a ++ b) = (asked kind a + asked kind b)%nat.
Proof. unfold asked. rewrite filter_app. apply length_app. Qed.

(** The waits, the status queries, the balance queries and the length of
    what [k] confirmation attempts that go on leave in the trace. *)
Lemma confirmation_retries_measure (signature : string) (k : nat) :
  waited (confirmation_retries signature k) = 1000 * Z.of_nat k /\
  asked is_status_query (confirmation_retries signature k) = k /\
  asked is_balance_query (confirmation_retries signature k) = 0%nat /\
  length (confirmation_retries signature k) = (2 * k)%nat.
Proof.
  induction k as [|k (Hw & Hs & Hb & Hl)]; [repeat split|].
  unfold confirmation_retries in *. unfold asked in *.
  cbn [repeat concat app waited filter is_status_query is_balance_query length].
  rewrite Hw, Hs, Hb, Hl. repeat split; lia.
Qed.

Lemma balance_retries_measure (burnerATA : PublicKey) (k : nat) :
  waited (balance_retries burnerATA k) = 2000 * Z.of_nat k /\
  asked is_status_query (balance_retries burnerATA k) = 0%nat /\
  asked is_balance_query (balance_retries burnerATA k) = k /\
  length (balance_retries burnerATA k) = (2 * k)%nat.
Proof.
  induction k as [|k (Hw & Hs & Hb & Hl)]; [repeat split|].
  unfold balance_retries in *. unfold asked in *.
  cbn [repeat concat app waited filter is_status_query is_balance_query length].
  rewrite Hw, Hs, Hb, Hl. repeat split; lia.
Qed.

Lemma within_app (ms ms' : Z) (s s' b b' r r' : nat) (a c : list Event) :
  within ms s b r a -> within ms' s' b' r' c ->
  within (ms + ms') (s + s') (b + b') (r + r') (a ++ c).
Proof.
  unfold within. intros (Hw & Hs & Hb & Hl) (Hw' & Hs' & Hb' & Hl').
  rewrite waited_app, !asked_app, length_app. lia.
Qed.

Lemma within_nil : within 0 0 0 0 [].
Proof. unfold within. cbn. lia. Qed.

Lemma within_weaken (ms ms' : Z) (s s' b b' r r' : nat) (a : list Event) :
  within ms s b r a ->
  ms <= ms' -> (s <= s')%nat -> (b <= b')%nat -> (r <= r')%nat ->
  within ms' s' b' r' a.
Proof. unfold within. lia. Qed.

Section Budget.

Variable cfg : Config.
Variable w : World.

Lemma funding_stage_within (fundingTxSignature : option string) :
  within 30000 30 0 60 (trace (funding_stage w fundingTxSignature)).
Proof.
  destruct fundingTxSignature as [[|c signature]|];
    try (apply (within_weaken 0 _ 0 _ 0 _ 0 _ _ within_nil); lia).
  cbn [funding_stage].
  destruct (wait_for_funding_trace w (String c signature))
    as [k [[Hk Ht]|[Hk Ht]]]; rewrite Ht;
    destruct (confirmation_retries_measure (String c signature) k)
      as (Hw & Hs & Hb & Hl); unfold within.
  - rewrite Hw, Hs, Hb, Hl. lia.
  - rewrite waited_app, !asked_app, length_app, Hw, Hs, Hb, Hl.
    unfold asked.
    cbn [waited filter is_status_query is_balance_query length]. lia.
Qed.

Lemma verify_balance_within (burnerATA : PublicKey) :
  within 20000 0 10 20 (trace (verify_balance cfg w burnerATA)).
Proof.
  destruct (verify_balance_trace cfg w burnerATA) as [k [[Hk Ht]|[Hk Ht]]];
    rewrite Ht;
    destruct (balance_retries_measure burnerATA k) as (Hw & Hs & Hb & Hl);
    unfold within.
  - rewrite Hw, Hs, Hb, Hl. lia.
  - rewrite waited_app, !asked_app, length_app, Hw, Hs, Hb, Hl.
    unfold asked.
    cbn [waited filter is_status_query is_balance_query length]. lia.
Qed.

Lemma privacy_relay_within (session : Session) :
  within 3000 0 0 4 (trace (privacy_relay cfg w session)).
Proof.
  rewrite privacy_relay_trace.
  destruct (resolved _); [destruct (deposited cfg w session)|];
    unfold within; cbn; lia.
Qed.

Lemma pipeline_within (session : Session) (fundingTxSignature : option string) :
  within 53000 30 10 85 (trace (pipeline cfg w session fundingTxSignature)).
Proof.
  rewrite pipeline_trace.
  apply (within_app 30000 23000 30 0 0 10 60 25);
    [apply funding_stage_within|].
  destruct (funding_confirmed w fundingTxSignature);
    [|apply (within_weaken 0 _ 0 _ 0 _ 0 _ _ within_nil); lia].
  apply (within_app 20000 3000 0 0 10 0 20 5);
    [apply verify_balance_within|].
  destruct (balance_verified cfg w session);
    [|apply (within_weaken 0 _ 0 _ 0 _ 0 _ _ within_nil); lia].
  apply (within_app 3000 0 0 0 0 0 4 1); [apply privacy_relay_within|].
  destruct (deposited cfg w session && withdrawn cfg w);
    [|apply (within_weaken 0 _ 0 _ 0 _ 0 _ _ within_nil); lia].
  rewrite issue_activation_trace. unfold within. cbn. lia.
Qed.

End Budget.

(** X5. Whatever the collaborators answer, a run of
    [/api/execute-privacy-transaction] waits at most 53 seconds in all
    (30 x 1 s for the funding, 10 x 2 s for the balance, 3 s before the
    withdrawal), asks for the signature status at most 30 times and for the
    balance at most 10 times, and makes at most 85 requests and waits
    together. *)
Theorem run_is_bounded (cfg : Config) (w : World)
    (sessionId fundingTxSignature : option string)
    (sessions : Js.Map Session) :
  within 53000 30 10 85
    (snd (execute_privacy_transaction cfg w sessionId fundingTxSignature
            sessions)).
Proof.
  rewrite execute_trace.
  destruct (lookup sessions sessionId) as [session|].
  - apply pipeline_within.
  - apply (within_weaken 0 _ 0 _ 0 _ 0 _ _ within_nil); lia.
Qed.

(** ** What the caller of the Orchestrator gets *)

Section Answers.

Variable cfg : Config.
Variable w : World.

(** The handler by what the look-up and the pipeline give. *)
Lemma execute_unfold (sessionId fundingTxSignature : option string)
    (sessions : Js.Map Session) :
  execute_privacy_transaction cfg w sessionId fundingTxSignature sessions =
  match lookup sessions sessionId with
  | Some session =>
      match pipeline cfg w session fundingTxSignature with
      | (Resolve (deviceId, deviceToken, deepLink, withdrawal_tx), calls) =>
          (json_execute deviceId deviceToken deepLink withdrawal_tx,
           match sessionId with
           | Some id => Js.Map_delete sessions id
           | None => sessions
           end, calls)
      | (Throw message, calls) => (json_error 500 message, sessions, calls)
      end
  | None =>
      (json_error 400
         (match sessionId with
          | Some (String _ _) => "Invalid or expired session"
          | _ => "sessionId is required"
          end), sessions, [])
  end.
Proof.
  unfold execute_privacy_transaction, lookup.
  destruct sessionId as [[|c sessionId]|]; reflexivity.
Qed.

(** What the relay and the issuer resolve with. *)
Lemma privacy_relay_resolves (session : Session) (withdrawal_tx : string) :
  outcome (privacy_relay cfg w session) = Resolve withdrawal_tx ->
  withdrawSPL w USDC_MINT (PAYMENT_AMOUNT_human cfg) (PAYMENT_WALLET cfg)
  = Resolve withdrawal_tx.
Proof.
  unfold privacy_relay.
  destruct (new_PrivacyCash w (RPC_URL cfg) (burnerPrivateKeyBase58 session));
    [|discriminate].
  destruct (depositSPL w (PAYMENT_AMOUNT_human cfg) USDC_MINT);
    [|discriminate].
  cbn.
  destruct (withdrawSPL w USDC_MINT (PAYMENT_AMOUNT_human cfg)
              (PAYMENT_WALLET cfg)); cbn; congruence.
Qed.

Lemma issue_activation_resolves (deviceId : option string)
    (deviceToken deepLink : string) :
  outcome (issue_activation cfg w)
  = Resolve (deviceId, deviceToken, deepLink) ->
  deviceToken <> "" /\
  deepLink = (DESKTOP_SCHEME cfg ++ "://activate?token=" ++ deviceToken)%string
  /\
  exists deviceResponse info,
    fetch_device w (DVPN_API_URL cfg ++ "/device")%string "WINDOWS"
      (DVPN_APP_TOKEN cfg) = Resolve deviceResponse /\
    ok deviceResponse = true /\
    json deviceResponse = Resolve (Some info) /\
    data_token info = Some deviceToken /\
    data_id info = deviceId.
Proof.
  unfold issue_activation.
  destruct (fetch_device w _ _ _) as [deviceResponse|message] eqn:Hfetch;
    [|discriminate].
  cbn. destruct (ok deviceResponse) eqn:Hok; cbn.
  - destruct (json deviceResponse) as [[info|]|] eqn:Hjson; cbn;
      try discriminate.
    destruct (data_token info) as [[|c tok]|] eqn:Htok; cbn;
      try discriminate.
    intros H. injection H as <- <- <-.
    split; [discriminate|]. split; [reflexivity|].
    exists deviceResponse, info. repeat split; assumption.
  - destruct (text deviceResponse); discriminate.
Qed.

Lemma pipeline_resolves (session : Session)
    (fundingTxSignature deviceId : option string)
    (deviceToken deepLink withdrawal_tx : string) :
  outcome (pipeline cfg w session fundingTxSignature)
  = Resolve (deviceId, deviceToken, deepLink, withdrawal_tx) ->
  outcome (privacy_relay cfg w session) = Resolve withdrawal_tx /\
  outcome (issue_activation cfg w) = Resolve (deviceId, deviceToken, deepLink).
Proof.
  unfold pipeline. rewrite outcome_bind.
  destruct (outcome (match fundingTxSignature with
                     | Some (String _ _ as signature) =>
                         wait_for_funding w signature
                     | _ => ret tt
                     end)); [|discriminate].
  rewrite outcome_bind.
  destruct (outcome (verify_balance cfg w (burnerATA session)));
    [|discriminate].
  rewrite outcome_bind.
  destruct (outcome (privacy_relay cfg w session)) as [wd|]; [|discriminate].
  rewrite outcome_bind.
  destruct (outcome (issue_activation cfg w)) as [[[d t] l]|];
    [|discriminate].
  cbn. intros H. injection H as <- <- <- <-. split; reflexivity.
Qed.

End Answers.

(** X6. [/api/execute-privacy-transaction] answers with status 400 exactly
    when the request resolves to no session ([sessionId] missing, empty or
    not in the map); it then asks nothing of any collaborator and leaves the
    map as it was. *)
Theorem rejected_iff_no_session (cfg : Config) (w : World)
    (sessionId fundingTxSignature : option string)
    (sessions : Js.Map Session) :
  let run := execute_privacy_transaction cfg w sessionId fundingTxSignature
               sessions in
  ((exists message, fst (fst run) = json_error 400 message) <->
   lookup sessions sessionId = None) /\
  (lookup sessions sessionId = None ->
   snd (fst run) = sessions /\ snd run = []).
Proof.
  intros run. subst run. rewrite execute_unfold.
  destruct (lookup sessions sessionId) as [session|].
  - destruct (pipeline cfg w session fundingTxSignature)
      as [[[[[deviceId deviceToken] deepLink] withdrawal_tx]|message] calls];
      (split; [split; [intros [m H]; discriminate H | discriminate]
              | discriminate]).
  - split; [split; [reflexivity | intros _; eexists; reflexivity]|].
    intros _. split; reflexivity.
Qed.

(** An id that is not in [Sample.store]. *)
Lemma rejected_iff_no_session_witness :
  snd (fst (execute_privacy_transaction Sample.cfg (Sample.happy 0)
              (Some "session_0_unknown") (Some "sig") Sample.store))
  = Sample.store /\
  snd (execute_privacy_transaction Sample.cfg (Sample.happy 0)
         (Some "session_0_unknown") (Some "sig") Sample.store) = [].
Proof.
  exact (proj2 (rejected_iff_no_session Sample.cfg (Sample.happy 0)
                  (Some "session_0_unknown") (Some "sig") Sample.store)
           eq_refl).
Defined.

(** What a success answer tells of the run. *)
Lemma execute_success (cfg : Config) (w : World)
    (sessionId fundingTxSignature deviceId : option string)
    (deviceToken deepLink withdrawal_tx : string)
    (sessions : Js.Map Session) :
  let run := execute_privacy_transaction cfg w sessionId fundingTxSignature
               sessions in
  fst (fst run) = json_execute deviceId deviceToken deepLink withdrawal_tx ->
  exists session,
    lookup sessions sessionId = Some session /\
    all_stages_succeeded cfg w session fundingTxSignature = true /\
    lookup (snd (fst run)) sessionId = None /\
    outcome (privacy_relay cfg w session) = Resolve withdrawal_tx /\
    outcome (issue_activation cfg w)
    = Resolve (deviceId, deviceToken, deepLink).
Proof.
  intros run. subst run. rewrite execute_unfold.
  destruct (lookup sessions sessionId) as [session|] eqn:Hfound;
    [|discriminate].
  pose proof (pipeline_resolved cfg w session fundingTxSignature) as Hall.
  pose proof (pipeline_resolves cfg w session fundingTxSignature) as Hres.
  destruct (pipeline cfg w session fundingTxSignature)
    as [[[[[d t] l] wd]|message] calls]; [|discriminate].
  cbn [fst snd]. intros H. injection H as <- <- <- <-.
  destruct (Hres d t l wd eq_refl) as [Hrelay Hissue].
  exists session. split; [reflexivity|].
  split; [symmetry; exact Hall|]. split; [|split; assumption].
  unfold lookup in *. destruct sessionId as [[|c sessionId]|];
    try reflexivity.
  rewrite Map_get_delete, String.eqb_refl. reflexivity.
Qed.

(** X7. A success answer is complete: when the handler answers with a device
    token, every stage succeeded, the token is the non-empty [data.token] of
    a success answer of the provisioning API and the device id its
    [data.id], the deep link is [<scheme>://activate?token=<token>], the
    withdrawal reference is the signature the pool's withdrawal resolved
    with, and the session is deleted. *)
Theorem success_answer_is_complete (cfg : Config) (w : World)
    (sessionId fundingTxSignature deviceId : option string)
    (deviceToken deepLink withdrawal_tx : string)
    (sessions : Js.Map Session) :
  let run := execute_privacy_transaction cfg w sessionId fundingTxSignature
               sessions in
  fst (fst run) = json_execute deviceId deviceToken deepLink withdrawal_tx ->
  exists session,
    lookup sessions sessionId = Some session /\
    all_stages_succeeded cfg w session fundingTxSignature = true /\
    lookup (snd (fst run)) sessionId = None /\
    withdrawSPL w USDC_MINT (PAYMENT_AMOUNT_human cfg) (PAYMENT_WALLET cfg)
    = Resolve withdrawal_tx /\
    deviceToken <> "" /\
    deepLink
    = (DESKTOP_SCHEME cfg ++ "://activate?token=" ++ deviceToken)%string /\
    exists deviceResponse info,
      fetch_device w (DVPN_API_URL cfg ++ "/device")%string "WINDOWS"
        (DVPN_APP_TOKEN cfg) = Resolve deviceResponse /\
      ok deviceResponse = true /\
      json deviceResponse = Resolve (Some info) /\
      data_token info = Some deviceToken /\
      data_id info = deviceId.
Proof.
  intros run Hrun.
  destruct (execute_success cfg w sessionId fundingTxSignature deviceId
              deviceToken deepLink withdrawal_tx sessions Hrun)
    as (session & Hfound & Hall & Hgone & Hrelay & Hissue).
  exists session. repeat (split; [assumption|]).
  split; [exact (privacy_relay_resolves cfg w session _ Hrelay)|].
  exact (issue_activation_resolves cfg w _ _ _ Hissue).
Qed.

(** The funded run on [Sample.store]. *)
Lemma success_answer_is_complete_witness :
  withdrawSPL (Sample.happy 2000) USDC_MINT (PAYMENT_AMOUNT_human Sample.cfg)
    (PAYMENT_WALLET Sample.cfg) = Resolve "withdrawal-signature" /\
  "exidvpn://activate?token=tok-1"
  = (DESKTOP_SCHEME Sample.cfg ++ "://activate?token=" ++ "tok-1")%string.
Proof.
  destruct (success_answer_is_complete Sample.cfg (Sample.happy 2000)
              (Some Sample.sessionId) None (Some "dev-1") "tok-1"
              "exidvpn://activate?token=tok-1" "withdrawal-signature"
              Sample.store eq_refl)
    as (session & _ & _ & _ & Hw & _ & Hlink & _).
  split; [exact Hw | exact Hlink].
Defined.

(** X8. A session is consumed by the run that succeeds on it: the next
    [/api/execute-privacy-transaction] with the same id, whatever the world
    and the signature, is answered "Invalid or expired session", asks
    nothing of any collaborator and changes nothing. *)
Theorem consumed_session_cannot_be_executed_again (cfg : Config)
    (w w' : World)
    (sessionId fundingTxSignature fundingTxSignature' : option string)
    (deviceId : option string) (deviceToken deepLink withdrawal_tx : string)
    (sessions : Js.Map Session) :
  let run := execute_privacy_transaction cfg w sessionId fundingTxSignature
               sessions in
  fst (fst run) = json_execute deviceId deviceToken deepLink withdrawal_tx ->
  execute_privacy_transaction cfg w' sessionId fundingTxSignature'
    (snd (fst run))
  = (json_error 400 "Invalid or expired session", snd (fst run), []).
Proof.
  intros run Hrun.
  destruct (execute_success cfg w sessionId fundingTxSignature
              deviceId deviceToken deepLink withdrawal_tx sessions Hrun)
    as (session & Hfound & _ & Hgone & _).
  fold run in Hgone. rewrite execute_unfold, Hgone.
  unfold lookup in Hfound.
  destruct sessionId as [[|c sessionId]|]; try discriminate. reflexivity.
Qed.

(** The funded run on [Sample.store], and the same request once more. *)
Lemma consumed_session_cannot_be_executed_again_witness :
  execute_privacy_transaction Sample.cfg (Sample.happy 3000)
    (Some Sample.sessionId) (Some "sig") []
  = (json_error 400 "Invalid or expired session", [], []).
Proof.
  exact (consumed_session_cannot_be_executed_again Sample.cfg
           (Sample.happy 2000) (Sample.happy 3000) (Some Sample.sessionId)
           None (Some "sig") (Some "dev-1") "tok-1"
           "exidvpn://activate?token=tok-1" "withdrawal-signature"
           Sample.store eq_refl).
Defined.

(** The handler once the payment went through the pool: the answer depends
    on the issuer alone. *)
Lemma execute_after_payment (cfg : Config) (w : World)
    (sessionId fundingTxSignature : option string)
    (sessions : Js.Map Session) (session : Session) :
  lookup sessions sessionId = Some session ->
  funding_confirmed w fundingTxSignature = true ->
  balance_verified cfg w session = true ->
  deposited cfg w session = true ->
  withdrawn cfg w = true ->
  let run := execute_privacy_transaction cfg w sessionId fundingTxSignature
               sessions in
  (forall message,
     outcome (issue_activation cfg w) = Throw message ->
     fst run = (json_error 500 message, sessions)) /\
  In (depositSPL_call (PAYMENT_AMOUNT_human cfg) USDC_MINT) (snd run) /\
  In (withdrawSPL_call USDC_MINT (PAYMENT_AMOUNT_human cfg)
        (PAYMENT_WALLET cfg)) (snd run).
Proof.
  intros Hfound HF HV HD HW run. subst run.
  assert (Hcalls :
    In (depositSPL_call (PAYMENT_AMOUNT_human cfg) USDC_MINT)
      (trace (pipeline cfg w session fundingTxSignature)) /\
    In (withdrawSPL_call USDC_MINT (PAYMENT_AMOUNT_human cfg)
          (PAYMENT_WALLET cfg))
      (trace (pipeline cfg w session fundingTxSignature))).
  { rewrite pipeline_trace, HF, HV, HD, HW, privacy_relay_trace, HD.
    unfold deposited in HD. apply andb_true_iff in HD.
    destruct HD as [HN _]. rewrite HN.
    split; apply in_or_app; right; apply in_or_app; right;
      apply in_or_app; left; cbn; tauto. }
  rewrite execute_unfold, Hfound.
  assert (Hout : forall message,
            outcome (issue_activation cfg w) = Throw message ->
            outcome (pipeline cfg w session fundingTxSignature)
            = Throw message).
  { intros message Hissue. unfold pipeline. rewrite outcome_bind.
    rewrite <- funding_stage_resolved in HF. unfold funding_stage in HF.
    destruct (outcome (match fundingTxSignature with
                       | Some (String _ _ as signature) =>
                           wait_for_funding w signature
                       | _ => ret tt
                       end)); [|discriminate HF].
    rewrite outcome_bind. unfold balance_verified in HV.
    destruct (outcome (verify_balance cfg w (burnerATA session)));
      [|discriminate HV].
    rewrite outcome_bind.
    pose proof (privacy_relay_resolved cfg w session) as HR.
    rewrite HD, HW in HR.
    destruct (outcome (privacy_relay cfg w session)); [|discriminate HR].
    rewrite outcome_bind, Hissue. reflexivity. }
  destruct (pipeline cfg w session fundingTxSignature)
    as [[[[[d t] l] wd]|message] calls]; cbn [fst snd outcome trace] in *.
  - split; [|exact Hcalls]. intros message Hissue.
    discriminate (Hout message Hissue).
  - split; [|exact Hcalls]. intros message' Hissue.
    specialize (Hout message' Hissue). injection Hout as <-. reflexivity.
Qed.

(** X9. When the payment has gone through the pool but the provisioning API
    answers with a non-success status, or with a success answer that has no
    (or an empty) token, the caller gets a 500 ("Failed to create device",
    respectively "No device token received"), the session stays in the map,
    and the deposit and the withdrawal have both been requested: the money
    has moved and no activation was issued. *)
Theorem payment_made_but_activation_refused (cfg : Config) (w : World)
    (sessionId fundingTxSignature : option string)
    (sessions : Js.Map Session) (session : Session)
    (deviceResponse : FetchResponse) :
  lookup sessions sessionId = Some session ->
  funding_confirmed w fundingTxSignature = true ->
  balance_verified cfg w session = true ->
  deposited cfg w session = true ->
  withdrawn cfg w = true ->
  fetch_device w (DVPN_API_URL cfg ++ "/device")%string "WINDOWS"
    (DVPN_APP_TOKEN cfg) = Resolve deviceResponse ->
  let run := execute_privacy_transaction cfg w sessionId fundingTxSignature
               sessions in
  ((ok deviceResponse = false ->
    resolved (text deviceResponse) = true ->
    fst run = (json_error 500 "Failed to create device", sessions)) /\
   (ok deviceResponse = true ->
    (exists data,
       json deviceResponse = Resolve data /\
       match data with
       | Some {| data_token := Some (String _ _) |} => False
       | _ => True
       end) ->
    fst run = (json_error 500 "No device token received", sessions))) /\
  In (depositSPL_call (PAYMENT_AMOUNT_human cfg) USDC_MINT) (snd run) /\
  In (withdrawSPL_call USDC_MINT (PAYMENT_AMOUNT_human cfg)
        (PAYMENT_WALLET cfg)) (snd run).
Proof.
  intros Hfound HF HV HD HW Hfetch run.
  destruct (execute_after_payment cfg w sessionId fundingTxSignature sessions
              session Hfound HF HV HD HW) as (Hfail & Hcalls).
  fold run in Hfail, Hcalls. split; [|exact Hcalls].
  split.
  - intros Hok Htext. apply Hfail. unfold issue_activation.
    rewrite Hfetch. cbn. rewrite Hok. cbn.
    destruct (text deviceResponse); [reflexivity | discriminate Htext].
  - intros Hok (data & Hjson & Hdata). apply Hfail. unfold issue_activation.
    rewrite Hfetch. cbn. rewrite Hok. cbn. rewrite Hjson. cbn.
    destruct data as [[[[|c tok]|] device_id]|]; cbn; try reflexivity.
    elim Hdata.
Qed.

(** [Scenario.provisioning_down] on [Sample.store]: the pool requests are
    made, then the API answers 503. *)
Lemma payment_made_but_activation_refused_witness :
  fst (execute_privacy_transaction Sample.cfg Scenario.provisioning_down
         (Some Sample.sessionId) (Some "sig") Sample.store)
  = (json_error 500 "Failed to create device", Sample.store) /\
  In (withdrawSPL_call USDC_MINT (PAYMENT_AMOUNT_human Sample.cfg)
        (PAYMENT_WALLET Sample.cfg))
    (snd (execute_privacy_transaction Sample.cfg Scenario.provisioning_down
            (Some Sample.sessionId) (Some "sig") Sample.store)).
Proof.
  destruct (lookup Sample.store (Some Sample.sessionId)) as [session|] eqn:Hf;
    [|discriminate Hf].
  assert (Hs : session
               = new_session Sample.bs58_encode (Sample.happy 1000)
                   Sample.burner
                   "ata-of-Burner11111111111111111111111111111111111111")
    by (injection Hf as <-; reflexivity).
  pose proof (payment_made_but_activation_refused Sample.cfg
                Scenario.provisioning_down (Some Sample.sessionId)
                (Some "sig") Sample.store session
                {| ok := false;
                   text := Resolve "Service Unavailable";
                   json := Throw "Unexpected token S in JSON" |} Hf) as H.
  rewrite Hs in H.
  destruct (H eq_refl eq_refl eq_refl eq_refl eq_refl)
    as ((Hdown & _) & _ & Hwd).
  split; [exact (Hdown eq_refl eq_refl) | exact Hwd].
Defined.

(** ** The Session Store, continued *)

Section Keys.

Context {V : Type}.

Lemma Map_get_In (m : Js.Map V) (key : string) (value : V) :
  Js.Map_get m key = Some value -> In (key, value) m.
Proof.
  induction m as [|[k v] m IH]; cbn; [discriminate|].
  destruct (String.eqb k key) eqn:E.
  - apply String.eqb_eq in E. intros H. injection H as <-. subst k.
    left. reflexivity.
  - intros H. right. exact (IH H).
Qed.

Lemma In_Map_get (m : Js.Map V) (key : string) (value : V) :
  NoDup (map fst m) -> In (key, value) m -> Js.Map_get m key = Some value.
Proof.
  induction m as [|[k v] m IH]; cbn; [tauto|].
  intros Hnd [H|H].
  - injection H as -> ->. rewrite String.eqb_refl. reflexivity.
  - inversion Hnd as [|? ? Hk Hm]; subst.
    destruct (String.eqb k key) eqn:E; [|exact (IH Hm H)].
    apply String.eqb_eq in E. subst k. elim Hk.
    exact (in_map fst m (key, value) H).
Qed.

Lemma Map_set_keys (m : Js.Map V) (key key' : string) (value : V) :
  In key' (map fst (Js.Map_set m key value)) ->
  key' = key \/ In key' (map fst m).
Proof.
  induction m as [|[k v] m IH]; cbn.
  - intros [H|[]]. left. symmetry. exact H.
  - destruct (String.eqb k key); cbn; [tauto|].
    intros [H|H]; [tauto|]. destruct (IH H); tauto.
Qed.

Lemma Map_set_NoDup (m : Js.Map V) (key : string) (value : V) :
  NoDup (map fst m) -> NoDup (map fst (Js.Map_set m key value)).
Proof.
  induction m as [|[k v] m IH]; cbn; intros Hnd.
  - constructor; [tauto | constructor].
  - inversion Hnd as [|? ? Hk Hm]; subst.
    destruct (String.eqb k key) eqn:E; cbn; [exact Hnd|].
    constructor; [|exact (IH Hm)].
    intros H. apply Map_set_keys in H. destruct H as [->|H]; [|tauto].
    rewrite String.eqb_refl in E. discriminate.
Qed.

Lemma Map_delete_NoDup (m : Js.Map V) (key : string) :
  NoDup (map fst m) -> NoDup (map fst (Js.Map_delete m key)).
Proof.
  unfold Js.Map_delete.
  induction m as [|[k v] m IH]; cbn; intros Hnd; [constructor|].
  inversion Hnd as [|? ? Hk Hm]; subst.
  destruct (negb (String.eqb k key)); cbn; [|exact (IH Hm)].
  constructor; [|exact (IH Hm)].
  intros H. apply Hk. apply in_map_iff in H.
  destruct H as ([k' v'] & Hfst & Hin). apply filter_In in Hin.
  cbn in Hfst. subst k'. exact (in_map fst m (k, v') (proj1 Hin)).
Qed.

End Keys.

Section CleanUp.

Variable w : World.

Lemma clean_up_NoDup (entries : list (string * Session)) :
  forall k sessions,
    NoDup (map fst sessions) ->
    NoDup (map fst (clean_up w k entries sessions)).
Proof.
  induction entries as [|[id session] entries IH]; intros k sessions Hnd;
    [exact Hnd|].
  cbn [clean_up]. apply IH.
  destruct (Date_now w k >? expiresAt session);
    [apply Map_delete_NoDup|]; exact Hnd.
Qed.

(** The clean-up keeps a session all of whose walked entries are still
    within their time at every reading of the clock. *)
Lemma clean_up_keeps (id : string) (entries : list (string * Session)) :
  (forall session, In (id, session) entries ->
                   forall k, Date_now w k <= expiresAt session) ->
  forall k sessions,
    Js.Map_get (clean_up w k entries sessions) id = Js.Map_get sessions id.
Proof.
  induction entries as [|[id' session'] entries IH]; intros Hin k sessions;
    [reflexivity|].
  cbn [clean_up]. rewrite IH by (intros; apply Hin; right; assumption).
  destruct (Date_now w k >? expiresAt session') eqn:E; [|reflexivity].
  rewrite Map_get_delete.
  destruct (String.eqb id' id) eqn:Eid; [|reflexivity].
  apply String.eqb_eq in Eid. subst id'.
  pose proof (Hin session' (or_introl eq_refl) k) as Hle.
  apply Z.gtb_lt in E. lia.
Qed.

(** A walked entry that is still found after the clean-up was within its
    time at the reading it was walked at. *)
Lemma clean_up_left (id : string) (session : Session)
    (entries : list (string * Session)) :
  In (id, session) entries ->
  forall k sessions,
    Js.Map_get (clean_up w k entries sessions) id <> None ->
    exists j, Date_now w j <= expiresAt session.
Proof.
  induction entries as [|[id' session'] entries IH]; intros Hin k sessions H;
    [elim Hin|].
  cbn [clean_up] in H. destruct Hin as [Heq|Hin].
  - injection Heq as -> ->.
    destruct (Date_now w k >? expiresAt session) eqn:E.
    + elim H.
      destruct (Js.Map_get (clean_up w (S k) entries
                              (Js.Map_delete sessions id)) id)
        as [found|] eqn:Hget; [|reflexivity].
      apply clean_up_get in Hget.
      rewrite Map_get_delete, String.eqb_refl in Hget. discriminate.
    + exists k. rewrite Z.gtb_ltb in E. apply Z.ltb_ge in E. exact E.
  - exact (IH Hin _ _ H).
Qed.

End CleanUp.

Section Creation.

Variable cfg : Config.
Variable TOKEN_PROGRAM_ID : PublicKey.
Variable ASSOCIATED_TOKEN_PROGRAM_ID : PublicKey.
Variable getAssociatedTokenAddress :
  PublicKey -> PublicKey -> bool -> PublicKey -> PublicKey -> Outcome PublicKey.
Variable bs58_encode : list Z -> string.

Let derive := derive_ata TOKEN_PROGRAM_ID ASSOCIATED_TOKEN_PROGRAM_ID
                getAssociatedTokenAddress.
Let create := create_session cfg TOKEN_PROGRAM_ID ASSOCIATED_TOKEN_PROGRAM_ID
                getAssociatedTokenAddress bs58_encode.
Let reachable := reachable cfg TOKEN_PROGRAM_ID ASSOCIATED_TOKEN_PROGRAM_ID
                   getAssociatedTokenAddress bs58_encode.

(** [/api/create-session] by what the derivation gives. *)
Lemma create_session_unfold (w : World) (sessions : Js.Map Session) :
  create w sessions =
  match derive (Keypair_generate w) with
  | Resolve burnerATA =>
      let stored := Js.Map_set sessions (new_sessionId w)
                      (new_session bs58_encode w (Keypair_generate w)
                         burnerATA) in
      (json_create_session (new_sessionId w)
         (publicKey (Keypair_generate w)) burnerATA (PAYMENT_AMOUNT cfg)
         (PAYMENT_AMOUNT_human cfg),
       clean_up w 3 stored stored)
  | Throw message => (json_error 500 message, sessions)
  end.
Proof. reflexivity. Qed.

(** The ids of a reachable store are pairwise different, as the keys of a
    [Map] are. *)
Lemma reachable_NoDup (sessions : Js.Map Session) :
  reachable sessions -> NoDup (map fst sessions).
Proof.
  induction 1 as [|sessions sessions' _ IH Hstep]; [constructor|].
  destruct Hstep as [w sessions|w sessionId fundingTxSignature sessions].
  - fold (create w sessions). rewrite create_session_unfold.
    destruct (derive (Keypair_generate w)); [|exact IH].
    cbn [snd]. apply clean_up_NoDup, Map_set_NoDup, IH.
  - unfold execute_privacy_transaction.
    destruct sessionId as [[|c sessionId]|]; try exact IH.
    destruct (Js.Map_get sessions (String c sessionId)) as [session|];
      [|exact IH].
    destruct (pipeline cfg w session fundingTxSignature)
      as [[[[[deviceId deviceToken] deepLink] withdrawal_tx]|message] calls];
      [|exact IH].
    cbn [fst snd]. apply Map_delete_NoDup, IH.
Qed.

(** A session found under [id] in the store with the new session set is the
    only entry the clean-up walks under that id. *)
Lemma stored_entry (w : World) (sessions : Js.Map Session) (ata : PublicKey)
    (id : string) (session session' : Session) :
  reachable sessions ->
  let stored := Js.Map_set sessions (new_sessionId w)
                  (new_session bs58_encode w (Keypair_generate w) ata) in
  Js.Map_get stored id = Some session ->
  In (id, session') stored -> session' = session.
Proof.
  intros Hr stored Hget Hin.
  assert (Hnd : NoDup (map fst stored))
    by (apply Map_set_NoDup, reachable_NoDup, Hr).
  rewrite (In_Map_get stored id session' Hnd Hin) in Hget.
  injection Hget as ->. reflexivity.
Qed.

End Creation.

(** X10. [/api/create-session] on a reachable store, when the address
    derivation resolves and the clock does not run past the new session's
    expiry during the request: the answer names the generated id, the
    burner's public key and its derived token address with the configured
    amount, and under that id the map holds a session with exactly this
    public key and address, the base58 secret of the generated keypair, and
    the two clock readings.  When the derivation throws, the answer is a 500
    with its message and the map is untouched. *)
Theorem created_session_is_stored (cfg : Config)
    (TOKEN_PROGRAM_ID ASSOCIATED_TOKEN_PROGRAM_ID : PublicKey)
    (getAssociatedTokenAddress :
       PublicKey -> PublicKey -> bool -> PublicKey -> PublicKey
       -> Outcome PublicKey)
    (bs58_encode : list Z -> string) (w : World)
    (sessions : Js.Map Session) :
  reachable cfg TOKEN_PROGRAM_ID ASSOCIATED_TOKEN_PROGRAM_ID
    getAssociatedTokenAddress bs58_encode sessions ->
  let run := create_session cfg TOKEN_PROGRAM_ID ASSOCIATED_TOKEN_PROGRAM_ID
               getAssociatedTokenAddress bs58_encode w sessions in
  let burner := Keypair_generate w in
  (forall ata,
     derive_ata TOKEN_PROGRAM_ID ASSOCIATED_TOKEN_PROGRAM_ID
       getAssociatedTokenAddress burner = Resolve ata ->
     (forall k, Date_now w k <= Date_now w 2 + 900000) ->
     fst run
     = json_create_session (new_sessionId w) (publicKey burner) ata
         (PAYMENT_AMOUNT cfg) (PAYMENT_AMOUNT_human cfg) /\
     Js.Map_get (snd run) (new_sessionId w)
     = Some {| burnerKeypair := burner;
               burnerPublicKey := publicKey burner;
               burnerATA := ata;
               burnerPrivateKeyBase58 := bs58_encode (secretKey burner);
               createdAt := Date_now w 1;
               expiresAt := Date_now w 2 + 900000 |}) /\
  (forall message,
     derive_ata TOKEN_PROGRAM_ID ASSOCIATED_TOKEN_PROGRAM_ID
       getAssociatedTokenAddress burner = Throw message ->
     run = (json_error 500 message, sessions)).
Proof.
  intros Hr run burner. subst run burner.
  rewrite create_session_unfold. split.
  - intros ata Hd Hclock. rewrite Hd. cbn [fst snd].
    split; [reflexivity|].
    rewrite clean_up_keeps.
    + rewrite Map_get_set, String.eqb_refl. reflexivity.
    + intros session' Hin k.
      rewrite (stored_entry cfg _ _ _ bs58_encode w sessions ata
                 (new_sessionId w) _ session' Hr
                 ltac:(rewrite Map_get_set, String.eqb_refl; reflexivity)
                 Hin).
      cbn [expiresAt new_session]. specialize (Hclock k). lia.
  - intros message Hd. rewrite Hd. reflexivity.
Qed.

(** The first session of the process, created with the clock at 1000. *)
Lemma created_session_is_stored_witness :
  fst (Sample.create (Sample.happy 1000) [])
  = json_create_session "session_1000_k3j9x2q1z"
      "Burner11111111111111111111111111111111111111"
      "ata-of-Burner11111111111111111111111111111111111111" 1000000
      (1000000 # 1000000) /\
  Js.Map_get (snd (Sample.create (Sample.happy 1000) []))
    "session_1000_k3j9x2q1z"
  = Some {| burnerKeypair := Sample.burner;
            burnerPublicKey := "Burner11111111111111111111111111111111111111";
            burnerATA := "ata-of-Burner11111111111111111111111111111111111111";
            burnerPrivateKeyBase58 := "BwgJ";
            createdAt := 1000;
            expiresAt := 901000 |}.
Proof.
  refine (proj1 (created_session_is_stored Sample.cfg
                   Sample.TOKEN_PROGRAM_ID Sample.ASSOCIATED_TOKEN_PROGRAM_ID
                   Sample.getAssociatedTokenAddress Sample.bs58_encode
                   (Sample.happy 1000) [] (reachable_start _ _ _ _ _))
            "ata-of-Burner11111111111111111111111111111111111111" eq_refl _).
  intros k. cbn. lia.
Defined.

(** X11. The clean-up of [/api/create-session], on a reachable store when
    the session was stored, with every clock reading of the request between
    [lo] and [hi]: no session left in the map expires before [lo], and every
    session that was in the map under another id and expires at [hi] or
    later is still there, unchanged.  With a clock that stands at [now]
    during the request, exactly the sessions with [expiresAt < now] are
    evicted; one that expires at [now] stays. *)
Theorem clean_up_evicts_the_expired (cfg : Config)
    (TOKEN_PROGRAM_ID ASSOCIATED_TOKEN_PROGRAM_ID : PublicKey)
    (getAssociatedTokenAddress :
       PublicKey -> PublicKey -> bool -> PublicKey -> PublicKey
       -> Outcome PublicKey)
    (bs58_encode : list Z -> string) (w : World)
    (sessions : Js.Map Session) (lo hi : Z) :
  reachable cfg TOKEN_PROGRAM_ID ASSOCIATED_TOKEN_PROGRAM_ID
    getAssociatedTokenAddress bs58_encode sessions ->
  resolved (derive_ata TOKEN_PROGRAM_ID ASSOCIATED_TOKEN_PROGRAM_ID
              getAssociatedTokenAddress (Keypair_generate w)) = true ->
  (forall k, lo <= Date_now w k <= hi) ->
  let after := snd (create_session cfg TOKEN_PROGRAM_ID
                      ASSOCIATED_TOKEN_PROGRAM_ID getAssociatedTokenAddress
                      bs58_encode w sessions) in
  (forall id session,
     Js.Map_get after id = Some session -> lo <= expiresAt session) /\
  (forall id session,
     Js.Map_get sessions id = Some session ->
     id <> new_sessionId w ->
     hi <= expiresAt session ->
     Js.Map_get after id = Some session).
Proof.
  intros Hr Hd Hclock after. subst after.
  rewrite create_session_unfold.
  destruct (derive_ata TOKEN_PROGRAM_ID ASSOCIATED_TOKEN_PROGRAM_ID
              getAssociatedTokenAddress (Keypair_generate w)) as [ata|];
    [|discriminate Hd].
  cbn [snd]. split.
  - intros id session Hget.
    assert (Hin : In (id, session)
                    (Js.Map_set sessions (new_sessionId w)
                       (new_session bs58_encode w (Keypair_generate w) ata))).
    { apply Map_get_In. exact (clean_up_get w _ _ _ _ _ Hget). }
    assert (Hleft : Js.Map_get
                      (clean_up w 3
                         (Js.Map_set sessions (new_sessionId w)
                            (new_session bs58_encode w (Keypair_generate w)
                               ata))
                         (Js.Map_set sessions (new_sessionId w)
                            (new_session bs58_encode w (Keypair_generate w)
                               ata))) id <> None)
      by (rewrite Hget; discriminate).
    destruct (clean_up_left w id session _ Hin _ _ Hleft) as [j Hj].
    specialize (Hclock j). lia.
  - intros id session Hget Hid Hexp.
    assert (Hstored : Js.Map_get
                        (Js.Map_set sessions (new_sessionId w)
                           (new_session bs58_encode w (Keypair_generate w)
                              ata)) id = Some session).
    { rewrite Map_get_set.
      destruct (String.eqb (new_sessionId w) id) eqn:E; [|exact Hget].
      apply String.eqb_eq in E. elim Hid. symmetry. exact E. }
    rewrite clean_up_keeps; [exact Hstored|].
    intros session' Hin k.
    rewrite (stored_entry cfg _ _ _ bs58_encode w sessions ata id session
               session' Hr Hstored Hin).
    specialize (Hclock k). lia.
Qed.

(** [Scenario.two_sessions] is reached by two creations; a third one with
    the clock at 1000000 keeps the session that expires at 1400000. *)
Lemma clean_up_evicts_the_expired_witness :
  (exists session,
     Js.Map_get (snd (Sample.create (Sample.happy 1000000)
                        Scenario.two_sessions))
       "session_500000_a1b2c3d4e" = Some session /\
     expiresAt session = 1400000) /\
  Js.Map_get (snd (Sample.create (Sample.happy 1000000)
                     Scenario.two_sessions))
    "session_1000_k3j9x2q1z" = None.
Proof.
  split; [|reflexivity].
  destruct (Js.Map_get Scenario.two_sessions "session_500000_a1b2c3d4e")
    as [session|] eqn:Hget; [|discriminate Hget].
  assert (Hexp : expiresAt session = 1400000)
    by (injection Hget as <-; reflexivity).
  exists session. split; [|exact Hexp].
  refine (proj2 (clean_up_evicts_the_expired Sample.cfg
                   Sample.TOKEN_PROGRAM_ID Sample.ASSOCIATED_TOKEN_PROGRAM_ID
                   Sample.getAssociatedTokenAddress Sample.bs58_encode
                   (Sample.happy 1000000) Scenario.two_sessions
                   1000000 1000000 _ eq_refl _)
            "session_500000_a1b2c3d4e" session Hget _ _).
  - apply (reachable_step _ _ _ _ _ Sample.store).
    + apply (reachable_step _ _ _ _ _ []); [apply reachable_start|].
      exact (step_create_session Sample.cfg Sample.TOKEN_PROGRAM_ID
               Sample.ASSOCIATED_TOKEN_PROGRAM_ID
               Sample.getAssociatedTokenAddress Sample.bs58_encode
               (Sample.happy 1000) []).
    + unfold Scenario.two_sessions, Sample.create.
      apply step_create_session.
  - intros k. cbn. lia.
  - discriminate.
  - rewrite Hexp. lia.
Defined.

(** ** The substring test of the confirmation loop *)

Lemma prefix_spec (a b : string) :
  String.prefix a b = true <-> exists post, b = (a ++ post)%string.
Proof.
  revert b. induction a as [|c a IH]; intros b.
  - split; [intros _; exists b; reflexivity|].
    intros _. destruct b; reflexivity.
  - destruct b as [|d b]; cbn [String.prefix append].
    + split; [discriminate | intros [post H]; discriminate H].
    + destruct (ascii_dec c d) as [->|Hne].
      * rewrite IH. split; intros [post H]; exists post.
        -- rewrite H. reflexivity.
        -- injection H as H. exact H.
      * split; [discriminate|]. intros [post H]. injection H as H _.
        elim Hne. symmetry. exact H.
Qed.

Lemma includes_spec (needle haystack : string) :
  Js.includes needle haystack = true <->
  exists pre post, haystack = (pre ++ needle ++ post)%string.
Proof.
  induction haystack as [|c haystack IH]; cbn [Js.includes].
  - destruct (String.prefix needle "") eqn:E.
    + split; [|reflexivity]. intros _. apply prefix_spec in E.
      destruct E as [post H]. exists "", post. exact H.
    + split; [discriminate|]. intros (pre & post & H).
      destruct pre; [|discriminate H]. cbn [append] in H.
      assert (Hp : String.prefix needle "" = true)
        by (apply prefix_spec; exists post; exact H).
      rewrite Hp in E. discriminate.
  - destruct (String.prefix needle (String c haystack)) eqn:E.
    + split; [|reflexivity]. intros _. apply prefix_spec in E.
      destruct E as [post H]. exists "", post. exact H.
    + rewrite IH. split; intros (pre & post & H).
      * exists (String c pre), post. rewrite H. reflexivity.
      * destruct pre as [|c' pre].
        -- cbn [append] in H.
           assert (Hp : String.prefix needle (String c haystack) = true)
             by (apply prefix_spec; exists post; exact H).
           rewrite Hp in E. discriminate.
        -- injection H as _ H. exists pre, post. exact H.
Qed.

(** X14. The [catch] of the confirmation loop rethrows an exception exactly
    when its message contains the phrase "failed on-chain" somewhere, that
    is when it is some text, the phrase, and some text; every other
    exception is swallowed and the attempt counts as not confirmed. *)
Theorem exception_is_rethrown_iff_message_has_phrase (message : string) :
  (rethrow_on_chain_failure message = throw message <->
   exists pre post, message = (pre ++ "failed on-chain" ++ post)%string) /\
  (rethrow_on_chain_failure message = ret false <->
   ~ exists pre post, message = (pre ++ "failed on-chain" ++ post)%string).
Proof.
  unfold rethrow_on_chain_failure.
  rewrite <- (includes_spec "failed on-chain" message).
  destruct (Js.includes "failed on-chain" message); split; split;
    try reflexivity; try discriminate; congruence.
Qed.

(** X15. In every reachable store the record of a session belongs to its
    own keypair, and no request alters that: the public key stored is the
    keypair's public key and the base58 secret stored is the encoding of the
    keypair's secret key; and the session's id has the shape
    [session_<number>_<text>].  With X4, the pool client of a run is
    therefore always opened with the secret of the keypair whose token
    account was checked. *)
Theorem stored_session_belongs_to_its_keypair (cfg : Config)
    (TOKEN_PROGRAM_ID ASSOCIATED_TOKEN_PROGRAM_ID : PublicKey)
    (getAssociatedTokenAddress :
       PublicKey -> PublicKey -> bool -> PublicKey -> PublicKey
       -> Outcome PublicKey)
    (bs58_encode : list Z -> string)
    (sessions : Js.Map Session) (id : string) (session : Session) :
  reachable cfg TOKEN_PROGRAM_ID ASSOCIATED_TOKEN_PROGRAM_ID
    getAssociatedTokenAddress bs58_encode sessions ->
  Js.Map_get sessions id = Some session ->
  burnerPublicKey session = publicKey (burnerKeypair session) /\
  burnerPrivateKeyBase58 session
  = bs58_encode (secretKey (burnerKeypair session)) /\
  exists (now : Z) (random : string),
    id = ("session_" ++ Js.Number_toString now ++ "_" ++ random)%string.
Proof.
  intros Hr. revert id session.
  induction Hr as [|sessions sessions' _ IH Hstep]; intros id session Hget.
  - discriminate.
  - destruct Hstep as [w sessions|w sessionId fundingTxSignature sessions].
    + apply create_session_get in Hget.
      destruct Hget as [Hold|(Hid & _ & Hrec)]; [exact (IH _ _ Hold)|].
      rewrite Hrec. cbn [burnerPublicKey burnerPrivateKeyBase58 burnerKeypair
                           new_session].
      split; [reflexivity|]. split; [reflexivity|].
      exists (Date_now w 0), (Math_random_base36 w). exact Hid.
    + apply execute_get in Hget. exact (IH _ _ Hget).
Qed.

(** The session of [Sample.store]. *)
Lemma stored_session_belongs_to_its_keypair_witness :
  exists session,
    Js.Map_get Sample.store Sample.sessionId = Some session /\
    burnerPublicKey session = publicKey (burnerKeypair session) /\
    burnerPrivateKeyBase58 session
    = Sample.bs58_encode (secretKey (burnerKeypair session)).
Proof.
  destruct (Js.Map_get Sample.store Sample.sessionId) as [session|] eqn:Hget;
    [|discriminate Hget].
  exists session. split; [reflexivity|].
  assert (Hr : reachable Sample.cfg Sample.TOKEN_PROGRAM_ID
                 Sample.ASSOCIATED_TOKEN_PROGRAM_ID
                 Sample.getAssociatedTokenAddress Sample.bs58_encode
                 Sample.store).
  { apply (reachable_step _ _ _ _ _ [] Sample.store
             (reachable_start _ _ _ _ _)).
    exact (step_create_session Sample.cfg Sample.TOKEN_PROGRAM_ID
             Sample.ASSOCIATED_TOKEN_PROGRAM_ID
             Sample.getAssociatedTokenAddress Sample.bs58_encode
             (Sample.happy 1000) []). }
  destruct (stored_session_belongs_to_its_keypair Sample.cfg
              Sample.TOKEN_PROGRAM_ID Sample.ASSOCIATED_TOKEN_PROGRAM_ID
              Sample.getAssociatedTokenAddress Sample.bs58_encode
              Sample.store Sample.sessionId session Hr Hget)
    as (Hpub & Hsecret & _).
  split; [exact Hpub | exact Hsecret].
Defined.
